(** * NLP search widget: match engine and title resolver

    A shallow embedding of the two leaf components of the search page:

    - the match engine of the search script ([loadProjectFeeds],
      [initializeFuzzySearch], [searchFeeds]);
    - the title resolver of [js/nlp-url-resolver.js] (class
      [NLPURLResolver]: constructor, [init], [loadListsMapping],
      [getProjectPageURL]).

    Modelling conventions.

    - A JavaScript string is a [string]: a sequence of 8-bit code units.
      [trim] strips the ASCII white space and line terminators, and
      [toLowerCase] lowers the letters [A]-[Z]; other code units are left
      alone.
    - A JavaScript value that is either [undefined] or a string is an
      [option string], [None] being [undefined].
    - A row produced by the CSV parser (header mode) is a finite map from
      column names to cell texts.
    - The object [listsMapping], used as a dictionary, is a [gmap] from
      strings to strings holding its own properties; a read also finds
      the members inherited from [Object.prototype], and a write under
      [__proto__] stores nothing ([PlainObject]).
    - A [TypeError] raised by a method call on [undefined] is the result
      [None] of a computation of type [option _].
    - The network and the CSV parser are collaborators: what they deliver
      is an input of the model ([SheetOutcome], [CsvOutcome]).

    Further modules cover the rendering of results ([renderSearchResults]),
    the search handler of [js/nlp.js] ([doSearch]), the configuration
    presets ([AIInsightsConfigs], [createCustomConfig], [validateConfig])
    and the cache of the component of [js/ai-insights-core.js]
    ([saveToCache], [getFromCache], [clearCache], [capitalize]). There
    [toUpperCase] raises the letters [a]-[z], the preset table is read
    like [listsMapping], [localStorage] is a finite map from keys to
    texts, and [JSON.stringify], the clock and the success of a storage
    write are inputs. The cache of the component is a finite map of
    finite maps: it stands for the cache objects as long as no provider
    name is a member every object inherits and no cache key is
    [__proto__], which the statements about it assume. Statements that
    depend on what [trim], [toLowerCase] or [toUpperCase] do beyond
    white-space-only strings assume ASCII text. *)

From Stdlib Require Import Ascii String.
From stdpp Require Import base option list strings gmap.

(** ** String primitives *)

Module JSString.

(** White space and line terminators recognised by [String.prototype.trim]
    among the ASCII code units: TAB, LF, VT, FF, CR and SPACE. *)
Definition isWhiteSpace (c : ascii) : bool :=
  match c with
  | "009" | "010" | "011" | "012" | "013" | " " => true
  | _ => false
  end%char.

Fixpoint trimStart (s : string) : string :=
  match s with
  | EmptyString => EmptyString
  | String c s' => if isWhiteSpace c then trimStart s' else s
  end.

Fixpoint trimEnd (s : string) : string :=
  match s with
  | EmptyString => EmptyString
  | String c s' =>
      match trimEnd s' with
      | EmptyString => if isWhiteSpace c then EmptyString else String c EmptyString
      | t => String c t
      end
  end.

(** [s.trim()] *)
Definition trim (s : string) : string := trimEnd (trimStart s).

Definition isUpper (c : ascii) : bool :=
  let n := nat_of_ascii c in Nat.leb 65 n && Nat.leb n 90.

Definition lowerChar (c : ascii) : ascii :=
  if isUpper c then ascii_of_nat (nat_of_ascii c + 32) else c.

(** [s.toLowerCase()] *)
Fixpoint toLowerCase (s : string) : string :=
  match s with
  | EmptyString => EmptyString
  | String c s' => String (lowerChar c) (toLowerCase s')
  end.

(** [s.startsWith(p)] *)
Fixpoint startsWith (s p : string) {struct p} : bool :=
  match p, s with
  | EmptyString, _ => true
  | String _ _, EmptyString => false
  | String a p', String b s' => if decide (a = b) then startsWith s' p' else false
  end.

(** [s.includes(p)]: [p] occurs in [s] at some position. *)
Fixpoint includes (s p : string) : bool :=
  startsWith s p ||
  match s with
  | EmptyString => false
  | String _ s' => includes s' p
  end.

(** The string consists of white space only (the empty string included). *)
Fixpoint allWhiteSpace (s : string) : bool :=
  match s with
  | EmptyString => true
  | String c s' => isWhiteSpace c && allWhiteSpace s'
  end.

(** JavaScript truthiness of a string: every string but the empty one. *)
Definition truthyStr (s : string) : bool :=
  match s with
  | EmptyString => false
  | String _ _ => true
  end.

(** Truthiness of a value that is [undefined] or a string. *)
Definition truthy (v : option string) : bool :=
  match v with
  | Some s => truthyStr s
  | None => false
  end.

(** [v?.trim()] *)
Definition optTrim (v : option string) : option string := trim <$> v.

(** [a || b] *)
Definition or_else (a b : option string) : option string :=
  if truthy a then a else b.

Definition isLower (c : ascii) : bool :=
  let n := nat_of_ascii c in Nat.leb 97 n && Nat.leb n 122.

Definition upperChar (c : ascii) : ascii :=
  if isLower c then ascii_of_nat (nat_of_ascii c - 32) else c.

(** [s.toUpperCase()] *)
Fixpoint toUpperCase (s : string) : string :=
  match s with
  | EmptyString => EmptyString
  | String c s' => String (upperChar c) (toUpperCase s')
  end.

(** [s.charAt(0)]: the empty string when [s] is empty. *)
Definition charAt0 (s : string) : string :=
  match s with
  | EmptyString => EmptyString
  | String c _ => String c EmptyString
  end.

(** [s.slice(1)] *)
Definition slice1 (s : string) : string :=
  match s with
  | EmptyString => EmptyString
  | String _ s' => s'
  end.

(** [l.join('')] on an array of strings. *)
Definition join (l : list string) : string := foldr String.append EmptyString l.

(** The value of [${v}] inside a template literal. *)
Definition interpolate (v : option string) : string :=
  match v with
  | Some s => s
  | None => "undefined"
  end.

(** The characters that cannot be written inside a literal here. *)
Definition dquote : string := String "034"%char EmptyString.
Definition newline : string := String "010"%char EmptyString.

(** The string is ASCII text: every code unit is below 128. On such
    strings [trim], [toLowerCase] and [toUpperCase] above are those of the
    language. *)
Fixpoint isASCII (s : string) : bool :=
  match s with
  | EmptyString => true
  | String c s' => Nat.ltb (nat_of_ascii c) 128 && isASCII s'
  end.

End JSString.

Import JSString.

(** ** Plain objects used as dictionaries *)

Module PlainObject.

(** What reading a property of an object literal gives when its own
    properties hold strings: an own string, or a member inherited from
    [Object.prototype] (a built-in function, or, under [__proto__], the
    prototype object itself). *)
Inductive Member :=
| OwnString (s : string)
| Builtin (name : string)
| PrototypeObject.

(** The properties of [Object.prototype]. *)
Definition objectPrototype (name : string) : option Member :=
  if decide (name = "constructor") then Some (Builtin "Object")
  else if decide (name ∈ ["hasOwnProperty"; "isPrototypeOf"; "propertyIsEnumerable";
                           "toLocaleString"; "toString"; "valueOf";
                           "__defineGetter__"; "__defineSetter__";
                           "__lookupGetter__"; "__lookupSetter__"])
  then Some (Builtin name)
  else if decide (name = "__proto__") then Some PrototypeObject
  else None.

(** [object[name]]: an own property hides an inherited one. *)
Definition get (own : gmap string string) (name : string) : option Member :=
  match own !! name with
  | Some s => Some (OwnString s)
  | None => objectPrototype name
  end.

(** [object[name] = value] for a string [value]: under [__proto__] the
    assignment reaches the inherited setter, which ignores a string. *)
Definition set (own : gmap string string) (name value : string) : gmap string string :=
  if decide (name = "__proto__") then own else <[name := value]> own.

(** Truthiness of what a property read gives; [None] is [undefined]. *)
Definition truthyMember (v : option Member) : bool :=
  match v with
  | Some (OwnString s) => truthyStr s
  | Some _ => true
  | None => false
  end.

(** [${v}] for a member: a built-in function prints as native code (in
    the layout of V8 and JavaScriptCore), the prototype object as any
    plain object does. *)
Definition memberText (v : Member) : string :=
  match v with
  | OwnString s => s
  | Builtin name => "function " +:+ name +:+ "() { [native code] }"
  | PrototypeObject => "[object Object]"
  end.

End PlainObject.

(** A row of the parsed CSV: column name to cell text. A column missing
    from a short row reads as [undefined]. *)
Abbreviation RawRow := (gmap string string).

(** ** Match engine: the search script *)

Module SearchLogic.

(** One project feed: the object literal built by [loadProjectFeeds]. *)
Record Feed := mkFeed {
  Title : option string;
  Description : option string;
  URL : option string;
  Team : option string;
  Status : option string;
  Location : option string;
  Tags : option string;
  _raw : RawRow
}.

(** The arrow function mapped over [results.data]. *)
Definition normalizeRow (r : RawRow) : Feed :=
  {| Title := or_else (or_else (optTrim (r !! "Title")) (optTrim (r !! "Name")))
                      (Some "(No title)");
     Description := or_else (or_else (optTrim (r !! "Description")) (optTrim (r !! "About")))
                            (Some "(No description)");
     URL := or_else (or_else (optTrim (r !! "URL")) (optTrim (r !! "Link"))) (Some "#");
     Team := or_else (optTrim (r !! "Team")) (Some EmptyString);
     Status := or_else (optTrim (r !! "Status")) (Some EmptyString);
     Location := or_else (optTrim (r !! "Location")) (Some EmptyString);
     Tags := or_else (optTrim (r !! "Tags")) (Some EmptyString);
     _raw := r |}.

(** What the fetch of the sheet and the CSV parser deliver. *)
Inductive SheetOutcome :=
| SheetFetchRejected (message : string)
| SheetHttpError (status : string)
| SheetParseError (err : string)
| SheetParsed (data : list RawRow).

(** Which callback [loadProjectFeeds] invokes, and with what. *)
Inductive Callback :=
| onError (errorMessage : string)
| onSuccess (feeds : list Feed).

Definition loadProjectFeeds (o : SheetOutcome) : Callback :=
  match o with
  | SheetFetchRejected message => onError ("Error loading Google Sheet: " +:+ message)
  | SheetHttpError status =>
      onError ("Error loading Google Sheet: " +:+ "HTTP error! status: " +:+ status)
  | SheetParseError err => onError ("Error parsing CSV: " +:+ err)
  | SheetParsed data =>
      match data with
      | [] => onError "No data found in Google Sheet."
      | _ => onSuccess (map normalizeRow data)
      end
  end.

(** A source cell is absent: the column is missing from the row, or its
    text is white space only. *)
Definition absent (v : option string) : Prop :=
  v = None ∨ ∃ s, v = Some s ∧ allWhiteSpace s = true.

Section Engine.

(** JavaScript numbers (scores, thresholds) and the fuzzy index are
    those of the third-party library Fuse.js: they stay abstract. *)
Variable Number : Type.

(** A search result: exact mode builds [{ item: f }], the fuzzy index
    adds [refIndex] and [score]. *)
Record SearchResult := mkResult {
  item : Feed;
  refIndex : option nat;
  score : option Number
}.

Record FuseOptions := mkOptions {
  keys : list string;
  threshold : Number;
  includeScore : bool
}.

(** A Fuse instance, seen through its [search] method. *)
Record Fuse := mkFuse {
  options : FuseOptions;
  search : string → list SearchResult
}.

(** The constructor [new Fuse(docs, options)] and the literal [0.35]. *)
Variable newFuse : list Feed → FuseOptions → Fuse.
Variable default_threshold : Number.

Definition initializeFuzzySearch (feeds : list Feed) (threshold : option Number) : Fuse :=
  newFuse feeds
    {| keys := ["Title"; "Description"; "Team"; "Tags"; "Location"];
       threshold := default default_threshold threshold;
       includeScore := true |}.

(** [field.toLowerCase().includes(lowerQuery)]; [None] is the
    [TypeError] of a method call on [undefined]. *)
Definition lowerIncludes (field : option string) (lowerQuery : string) : option bool :=
  match field with
  | Some s => Some (includes (toLowerCase s) lowerQuery)
  | None => None
  end.

(** The predicate passed to [filter]; [||] evaluates its right operand
    only when the left one is false. *)
Definition exactMatch (lowerQuery : string) (f : Feed) : option bool :=
  match lowerIncludes (Title f) lowerQuery with
  | Some true => Some true
  | Some false => lowerIncludes (Description f) lowerQuery
  | None => None
  end.

(** [Array.prototype.filter] with a predicate that may throw. *)
Fixpoint filterE (p : Feed → option bool) (l : list Feed) : option (list Feed) :=
  match l with
  | [] => Some []
  | f :: l' =>
      b ← p f;
      r ← filterE p l';
      Some (if b : bool then f :: r else r)
  end.

(** [f => ({ item: f })] *)
Definition exactResult (f : Feed) : SearchResult :=
  {| item := f; refIndex := None; score := None |}.

Definition searchFeeds (query : string) (feeds : list Feed)
    (fuseInstance : option Fuse) (useFuzzy : bool) : option (list SearchResult) :=
  if negb (truthyStr (trim query)) then Some []
  else
    match useFuzzy, fuseInstance with
    | true, Some fuse => Some (search fuse query)
    | _, _ =>
        let lowerQuery := toLowerCase query in
        r ← filterE (exactMatch lowerQuery) feeds;
        Some (map exactResult r)
    end.

(** *** Declarative reading of exact mode *)

(** [field] contains [query] as a substring, case being ignored. *)
Definition ciContains (field query : string) : Prop :=
  ∃ pre post, toLowerCase field = pre +:+ toLowerCase query +:+ post.

(** A record qualifies when its title or its description does. *)
Definition Qualifies (query : string) (f : Feed) : Prop :=
  (∃ t, Title f = Some t ∧ ciContains t query) ∨
  (∃ d, Description f = Some d ∧ ciContains d query).

(** A record the exact search can read: title and description are
    strings. *)
Definition searchable (f : Feed) : Prop :=
  is_Some (Title f) ∧ is_Some (Description f).

(** The title and the description of a record are ASCII text. *)
Definition asciiText (f : Feed) : Prop :=
  ∀ s, Title f = Some s ∨ Description f = Some s → isASCII s = true.

End Engine.

(** Sample data: a sheet of two rows, the second with neither title nor
    description, and a stand-in for a fuzzy index. *)
Definition sampleRows : list RawRow :=
  [ {[ "Title" := "Data Pipeline"; "Description" := " ETL tool " ]};
    {[ "Team" := "Ops" ]} ].

Definition sampleFeeds : list Feed := map normalizeRow sampleRows.

Definition sampleFuse : Fuse nat :=
  {| options := {| keys := ["Title"]; threshold := 0; includeScore := true |};
     search := λ _, map (λ f, {| item := f; refIndex := Some 0; score := Some 0 |}) sampleFeeds |}.

End SearchLogic.

Arguments SearchLogic.mkResult {Number}.
Arguments SearchLogic.item {Number}.
Arguments SearchLogic.refIndex {Number}.
Arguments SearchLogic.score {Number}.
Arguments SearchLogic.search {Number}.
Arguments SearchLogic.exactResult {Number}.
Arguments SearchLogic.searchFeeds {Number}.

(** ** Title resolver: [js/nlp-url-resolver.js] *)

Module NLPURLResolver.

(** The fields set by the constructor. *)
Record t := mk {
  listsMapping : gmap string string;
  baseURL : string;
  isLoaded : bool
}.

(** [new NLPURLResolver()], [origin] being [window.location.origin]. *)
Definition new (origin : string) : t :=
  {| listsMapping := ∅;
     baseURL := origin +:+ "/team/projects/";
     isLoaded := false |}.

(** What the fetch of [projects/lists.csv] and the CSV parser deliver. *)
Inductive CsvOutcome :=
| CsvFetchRejected (message : string)
| CsvHttpError (status statusText : string)
| CsvParseError (message : string)
| CsvParsed (data : list RawRow).

(** How the promise of an asynchronous method settles. *)
Inductive Settled :=
| Resolved
| Rejected (message : string).

(** The body of the [forEach] callback: one row written into the table. *)
Definition addRow (m : gmap string string) (row : RawRow) : gmap string string :=
  let title := optTrim (row !! "Title") in
  let feed := optTrim (row !! "Feed") in
  match title, feed with
  | Some t, Some f =>
      if truthyStr t && truthyStr f
      then PlainObject.set (PlainObject.set m t f) (toLowerCase t) f
      else m
  | _, _ => m
  end.

Definition loadListsMapping (this : t) (o : CsvOutcome) : t * Settled :=
  match o with
  | CsvFetchRejected message =>
      (this, Rejected ("Failed to fetch lists.csv: " +:+ message))
  | CsvHttpError status statusText =>
      (this, Rejected ("Failed to fetch lists.csv: " +:+ "HTTP " +:+ status +:+ ": " +:+ statusText))
  | CsvParseError message =>
      (this, Rejected ("CSV parse error: " +:+ message))
  | CsvParsed data =>
      match data with
      | [] => (this, Rejected "No data found in lists.csv")
      | _ =>
          ({| listsMapping := foldl addRow (listsMapping this) data;
              baseURL := baseURL this;
              isLoaded := isLoaded this |}, Resolved)
      end
  end.

(** [init()]: the resolver afterwards, and the boolean it returns. *)
Definition init (this : t) (o : CsvOutcome) : t * bool :=
  let '(this', settled) := loadListsMapping this o in
  match settled with
  | Resolved =>
      ({| listsMapping := listsMapping this';
          baseURL := baseURL this';
          isLoaded := true |}, true)
  | Rejected _ =>
      ({| listsMapping := listsMapping this';
          baseURL := baseURL this';
          isLoaded := false |}, false)
  end.

(** The template literal of the hit branch. *)
Definition projectsPageURL (base slug : string) : string :=
  base +:+ "#list=" +:+ slug +:+ "&display=table".

(** [fallbackURL] is [None] when the caller leaves the argument out; the
    parameter then takes its default. *)
Definition getProjectPageURL (this : t) (projectTitle : option string)
    (fallbackURL : option string) : string :=
  let fallbackURL := default "#" fallbackURL in
  if negb (isLoaded this) then fallbackURL
  else if negb (truthy projectTitle) then fallbackURL
  else
    match projectTitle with
    | None => fallbackURL
    | Some title =>
        let slug := PlainObject.get (listsMapping this) (trim title) in
        let slug :=
          if negb (PlainObject.truthyMember slug)
          then PlainObject.get (listsMapping this) (toLowerCase (trim title))
          else slug in
        match slug with
        | Some v =>
            if PlainObject.truthyMember slug
            then projectsPageURL (baseURL this) (PlainObject.memberText v)
            else fallbackURL
        | None => fallbackURL
        end
    end.

(** The resolvers a page can hold: a new one, and what [init] makes of a
    resolver it can hold. *)
Inductive reachable : t → Prop :=
| reachable_new origin : reachable (new origin)
| reachable_init this o : reachable this → reachable (init this o).1.

(** *** Declarative readings *)

(** The table built from a dataset alone, starting from no entry. *)
Definition freshTable (data : list RawRow) : gmap string string :=
  foldl addRow ∅ data.

(** [row] has the non-empty trimmed title [title] and the non-empty
    trimmed slug [slug]. *)
Definition rowEntry (row : RawRow) (title slug : string) : Prop :=
  optTrim (row !! "Title") = Some title ∧
  optTrim (row !! "Feed") = Some slug ∧
  title ≠ EmptyString ∧ slug ≠ EmptyString.

(** [title'] is a case variant of [title]. *)
Definition caseVariant (title' title : string) : Prop :=
  toLowerCase title' = toLowerCase title.


(** Sample data: rows of [lists.csv] with the two columns the resolver
    reads, and the resolver of a page that has loaded one row. *)
Definition listRow (title feed : string) : RawRow :=
  {[ "Title" := title; "Feed" := feed ]}.

Definition sampleResolver : t :=
  (init (new "https://example.org") (CsvParsed [listRow "Alpha Project" "alpha"])).1.

End NLPURLResolver.

(** ** Rendering of search results: the search script, last function *)

Module Rendering.

Import SearchLogic.

(** The arrow function mapped over [results]: one card. With a resolver
    the link is what [getProjectPageURL] returns, without one it is the
    feed's own [URL]. *)
Definition renderCard {Number} (urlResolver : option NLPURLResolver.t)
    (r : SearchResult Number) : string :=
  let item := item r in
  let projectURL :=
    match urlResolver with
    | Some resolver => Some (NLPURLResolver.getProjectPageURL resolver (Title item) (URL item))
    | None => URL item
    end in
  "<div class=" +:+ dquote +:+ "card" +:+ dquote +:+ ">" +:+ newline +:+
  "                    <h3>" +:+ interpolate (Title item) +:+ "</h3>" +:+ newline +:+
  "                    <p>" +:+ interpolate (Description item) +:+ "</p>" +:+ newline +:+
  "                    <a href=" +:+ dquote +:+ interpolate projectURL +:+ dquote +:+
  " target=" +:+ dquote +:+ "_blank" +:+ dquote +:+ ">View Project →</a>" +:+ newline +:+
  "                </div>".

(** [renderSearchResults(results, urlResolver = null)], [results] being
    an array. *)
Definition renderSearchResults {Number} (results : list (SearchResult Number))
    (urlResolver : option NLPURLResolver.t) : string :=
  match results with
  | [] => EmptyString
  | _ => join (map (renderCard urlResolver) results)
  end.

End Rendering.

(** ** The search page: [js/nlp.js] *)

Module NLPSearchPage.

Import SearchLogic Rendering.

(** What [doSearch] reads and writes: the closure variables [feeds] and
    [fuse], the search box, the fuzzy checkbox, [window.nlpAI] (absent, or
    an adapter with its [urlResolver], itself possibly [null]) and the
    content of the results panel. *)
Record Page (Number : Type) := mkPage {
  feeds : list Feed;
  fuse : option (Fuse Number);
  searchInput_value : string;
  fuzzyCheckbox_checked : bool;
  nlpAI : option (option NLPURLResolver.t);
  searchResults_innerHTML : string
}.

Arguments mkPage {Number}.
Arguments feeds {Number}.
Arguments fuse {Number}.
Arguments searchInput_value {Number}.
Arguments fuzzyCheckbox_checked {Number}.
Arguments nlpAI {Number}.
Arguments searchResults_innerHTML {Number}.

Definition set_innerHTML {Number} (p : Page Number) (html : string) : Page Number :=
  {| feeds := feeds p;
     fuse := fuse p;
     searchInput_value := searchInput_value p;
     fuzzyCheckbox_checked := fuzzyCheckbox_checked p;
     nlpAI := nlpAI p;
     searchResults_innerHTML := html |}.

(** The message shown when a search finds nothing. *)
Definition noResultsMessage (query : string) : string :=
  "<p>No results found for " +:+ dquote +:+ "<strong>" +:+ query +:+ "</strong>" +:+
  dquote +:+ "</p>".

(** [doSearch()]: the page afterwards; [None] when [searchFeeds] throws. *)
Definition doSearch {Number} (p : Page Number) : option (Page Number) :=
  match feeds p with
  | [] => Some p
  | _ =>
      let query := trim (searchInput_value p) in
      if negb (truthyStr query) then Some (set_innerHTML p EmptyString)
      else
        let useFuzzy := fuzzyCheckbox_checked p in
        results ← searchFeeds query (feeds p) (fuse p) useFuzzy;
        match results with
        | [] => Some (set_innerHTML p (noResultsMessage query))
        | _ =>
            let urlResolver := nlpAI p ≫= id in
            Some (set_innerHTML p (renderSearchResults results urlResolver))
        end
  end.

End NLPSearchPage.

(** ** Configuration presets: the presets script *)

Module AIInsightsConfig.

(** The values a configuration holds here: [undefined], [null],
    booleans, strings and arrays. Numbers, functions and nested objects
    are not modelled. *)
#[warnings="-register-all"]
Inductive Value :=
| VUndefined
| VNull
| VBool (b : bool)
| VString (s : string)
| VArray (items : list Value).

Abbreviation Config := (gmap string Value).

(** JavaScript truthiness. *)
Definition truthyValue (v : Value) : bool :=
  match v with
  | VUndefined | VNull => false
  | VBool b => b
  | VString s => truthyStr s
  | VArray _ => true
  end.

(** [a || b] *)
Definition orValue (a b : Value) : Value := if truthyValue a then a else b.

(** [config.name]: [undefined] for a missing property. *)
Definition field (config : Config) (name : string) : Value :=
  default VUndefined (config !! name).

(** [l.join(sep)] on an array of strings. *)
Fixpoint joinWith (sep : string) (l : list string) : string :=
  match l with
  | [] => EmptyString
  | [x] => x
  | x :: l' => x +:+ sep +:+ joinWith sep l'
  end.

(** [String(v)], as a template literal computes it; an array is its
    elements joined by commas, [null] and [undefined] elements reading as
    the empty string. *)
Fixpoint toStr (v : Value) : string :=
  match v with
  | VUndefined => "undefined"
  | VNull => "null"
  | VBool b => if b then "true" else "false"
  | VString s => s
  | VArray items =>
      joinWith ","
        (map (λ x, match x with
                   | VUndefined | VNull => EmptyString
                   | _ => toStr x
                   end) items)
  end.

(** [strings.includes(v)] on an array of strings: strict equality. *)
Definition includesString (strings : list string) (v : Value) : bool :=
  match v with
  | VString s => bool_decide (s ∈ strings)
  | _ => false
  end.

Section Presets.

(** [window.API_BASE] when the presets script is evaluated. *)
Variable API_BASE : Value.

Definition apiBase : Value := orValue API_BASE (VString "http://localhost:8081/api").

Definition nlp : Config :=
  list_to_map
    [ ("providers", VArray [VString "gemini"]);
      ("enableCaching", VBool false);
      ("enableSaveCancel", VBool false);
      ("enableCustomPrompts", VBool false);
      ("enableMaxRows", VBool false);
      ("enableRefreshButton", VBool false);
      ("displayMode", VString "search-results");
      ("cachePrefix", VString "nlpInsights");
      ("apiBase", apiBase) ].

Definition projects : Config :=
  list_to_map
    [ ("providers", VArray [VString "claude"; VString "gemini"]);
      ("enableCaching", VBool true);
      ("enableSaveCancel", VBool true);
      ("enableCustomPrompts", VBool true);
      ("enableMaxRows", VBool true);
      ("enableRefreshButton", VBool true);
      ("displayMode", VString "analysis");
      ("cachePrefix", VString "projectsInsights");
      ("apiBase", apiBase) ].

Definition simple : Config :=
  list_to_map
    [ ("providers", VArray [VString "gemini"]);
      ("enableCaching", VBool false);
      ("enableSaveCancel", VBool false);
      ("enableCustomPrompts", VBool false);
      ("enableMaxRows", VBool false);
      ("enableRefreshButton", VBool false);
      ("displayMode", VString "analysis");
      ("cachePrefix", VString "simpleInsights");
      ("apiBase", apiBase) ].

Definition advanced : Config :=
  list_to_map
    [ ("providers", VArray [VString "claude"; VString "gemini"]);
      ("enableCaching", VBool true);
      ("enableSaveCancel", VBool true);
      ("enableCustomPrompts", VBool true);
      ("enableMaxRows", VBool true);
      ("enableRefreshButton", VBool true);
      ("displayMode", VString "analysis");
      ("cachePrefix", VString "advancedInsights");
      ("apiBase", apiBase) ].

Definition dashboard : Config :=
  list_to_map
    [ ("providers", VArray [VString "gemini"]);
      ("enableCaching", VBool true);
      ("enableSaveCancel", VBool false);
      ("enableCustomPrompts", VBool false);
      ("enableMaxRows", VBool false);
      ("enableRefreshButton", VBool true);
      ("displayMode", VString "analysis");
      ("cachePrefix", VString "dashboardInsights");
      ("apiBase", apiBase) ].

Definition report : Config :=
  list_to_map
    [ ("providers", VArray [VString "claude"; VString "gemini"]);
      ("enableCaching", VBool true);
      ("enableSaveCancel", VBool true);
      ("enableCustomPrompts", VBool true);
      ("enableMaxRows", VBool true);
      ("enableRefreshButton", VBool true);
      ("displayMode", VString "analysis");
      ("cachePrefix", VString "reportInsights");
      ("apiBase", apiBase) ].

Definition AIInsightsConfigs : gmap string Config :=
  list_to_map
    [ ("nlp", nlp); ("projects", projects); ("simple", simple);
      ("advanced", advanced); ("dashboard", dashboard); ("report", report) ].

(** [createCustomConfig(basePreset, overrides = {})]. The preset table is
    an object literal: under a name it inherits, [AIInsightsConfigs[basePreset]]
    is a truthy member with no enumerable property of its own, and the
    spread of it adds nothing. *)
Definition createCustomConfig (basePreset : string) (overrides : option Config) : Config :=
  let overrides := default ∅ overrides in
  let base :=
    match AIInsightsConfigs !! basePreset with
    | Some preset => preset
    | None =>
        match PlainObject.objectPrototype basePreset with
        | Some _ => ∅
        | None => simple
        end
    end in
  overrides ∪ base.

End Presets.

(** [validateConfig(config)] *)
Definition validateConfig (config : Config) : bool :=
  let required := ["providers"; "displayMode"; "cachePrefix"; "apiBase"] in
  let missing := filter (λ name, config !! name = None) required in
  if Nat.ltb 0 (length missing) then false
  else
    match field config "providers" with
    | VArray providers =>
        if Nat.eqb (length providers) 0 then false
        else
          let validProviders := ["claude"; "gemini"] in
          let invalidProviders :=
            filter (λ p, includesString validProviders p = false) providers in
          if Nat.ltb 0 (length invalidProviders) then false
          else
            let validDisplayModes := ["analysis"; "search-results"] in
            if negb (includesString validDisplayModes (field config "displayMode")) then false
            else true
    | _ => false
    end.

(** *** Declarative reading *)

(** A configuration has the four required fields, a non-empty array of
    known providers and a known display mode. *)
Definition ValidConfig (config : Config) : Prop :=
  (∀ name, name ∈ ["providers"; "displayMode"; "cachePrefix"; "apiBase"] →
           is_Some (config !! name)) ∧
  (∃ providers, config !! "providers" = Some (VArray providers) ∧ providers ≠ [] ∧
     ∀ p, p ∈ providers → p = VString "claude" ∨ p = VString "gemini") ∧
  (config !! "displayMode" = Some (VString "analysis") ∨
   config !! "displayMode" = Some (VString "search-results")).

End AIInsightsConfig.

(** ** The insights component: [js/ai-insights-core.js] *)

Module AIInsightsComponent.

Import AIInsightsConfig.

(** A cached analysis: the fields of the data object and its timestamp. *)
Abbreviation Entry := (gmap string Value).

(** [localStorage] *)
Abbreviation Storage := (gmap string string).

(** The state the cache methods work on. The fields holding the DOM
    elements and the pending analyses are neither read nor written by the
    methods modelled here and are left out. *)
Record t := mk {
  config : Config;
  cache : gmap string (gmap string Entry);
  currentProvider : option string;
  isVisible : bool
}.

(** The defaults of the constructor, [API_BASE] being [window.API_BASE]. *)
Definition defaults (API_BASE : Value) : Config :=
  list_to_map
    [ ("containerId", VString "aiInsights");
      ("contentId", VString "insightsContent");
      ("statusId", VString "insightsStatus");
      ("providerButtonsId", VString "aiProviderButtons");
      ("controlsId", VString "aiControlsArea");
      ("providers", VArray [VString "gemini"]);
      ("enableCaching", VBool false);
      ("enableSaveCancel", VBool false);
      ("enableCustomPrompts", VBool false);
      ("enableMaxRows", VBool false);
      ("enableRefreshButton", VBool false);
      ("displayMode", VString "analysis");
      ("apiBase", orValue API_BASE (VString "http://localhost:8081/api"));
      ("cachePrefix", VString "aiInsights");
      ("onInit", VNull);
      ("onShow", VNull);
      ("onHide", VNull) ].

(** [new AIInsightsComponent(config)]; [config] is [None] when left out. *)
Definition new (API_BASE : Value) (config : option Config) : t :=
  {| config := default ∅ config ∪ defaults API_BASE;
     cache := ∅;
     currentProvider := None;
     isVisible := false |}.

(** The component part of [new NLPAIAdapter(customConfig)]: the NLP
    preset under the custom configuration, handed to the constructor
    above. [presets_API_BASE] is [window.API_BASE] when the presets script
    was evaluated. *)
Definition newNLPAIAdapter (presets_API_BASE API_BASE : Value)
    (customConfig : option Config) : t :=
  new API_BASE (Some (default ∅ customConfig ∪ nlp presets_API_BASE)).

Definition set_cache (this : t) (c : gmap string (gmap string Entry)) : t :=
  {| config := config this;
     cache := c;
     currentProvider := currentProvider this;
     isVisible := isVisible this |}.

(** The key under which a provider's entries are stored. *)
Definition storageKey (this : t) (provider : string) : string :=
  toStr (field (config this) "cachePrefix") +:+ "_" +:+ provider.

Section Cache.

(** [JSON.stringify] on the entries of one provider. *)
Variable JSON_stringify : gmap string Entry → string.

(** [saveToCache(provider, cacheKey, data)]. [now] is
    [new Date().toISOString()]; [setItemOk] tells whether
    [localStorage.setItem] returns rather than throws. *)
Definition saveToCache (this : t) (storage : Storage) (provider cacheKey : string)
    (data : Entry) (now : string) (setItemOk : bool) : t * Storage :=
  if negb (truthyValue (field (config this) "enableCaching")) then (this, storage)
  else
    let entries := default ∅ (cache this !! provider) in
    let entries := <[cacheKey := <["timestamp" := VString now]> data]> entries in
    let this := set_cache this (<[provider := entries]> (cache this)) in
    (this,
     if setItemOk
     then <[storageKey this provider := JSON_stringify entries]> storage
     else storage).

End Cache.

(** [getFromCache(provider, cacheKey)]; [None] is [null]. *)
Definition getFromCache (this : t) (provider cacheKey : string) : option Entry :=
  if negb (truthyValue (field (config this) "enableCaching")) then None
  else cache this !! provider ≫= λ entries, entries !! cacheKey.

(** [clearCache(provider = null)]: the component, the storage, and
    whether the call returns ([false]: [forEach] is called on something
    that is no array). *)
Definition clearCache (this : t) (storage : Storage) (provider : option string)
    : t * Storage * bool :=
  match provider with
  | Some (String c p) =>
      let provider := String c p in
      (set_cache this (<[provider := ∅]> (cache this)),
       delete (storageKey this provider) storage, true)
  | _ =>
      let this := set_cache this ∅ in
      match field (config this) "providers" with
      | VArray providers =>
          (this,
           foldl (λ st p, delete (toStr (field (config this) "cachePrefix") +:+ "_" +:+ toStr p) st)
                 storage providers,
           true)
      | _ => (this, storage, false)
      end
  end.

(** [getCurrentCacheKey()] *)
Definition getCurrentCacheKey : string := "default".

(** [capitalize(str)] *)
Definition capitalize (str : string) : string :=
  toUpperCase (charAt0 str) +:+ slice1 str.

(** Sample data: a component built on the [projects] preset, which
    enables caching, an analysis to cache, and a serializer that keeps
    the number of entries only. *)
Definition sampleComponent : t := new VUndefined (Some (projects VUndefined)).

Definition sampleData : Entry := {[ "analysis" := VString "three projects match" ]}.

Definition sampleStringify (entries : gmap string Entry) : string :=
  match size entries with
  | 0 => "{}"
  | _ => "{...}"
  end.

End AIInsightsComponent.

(** * Properties *)

Import SearchLogic.

(** ** The string primitives *)

Example trim_sample : trim "  Data Pipeline  " = "Data Pipeline".
Proof. reflexivity. Qed.

Example toLowerCase_sample : toLowerCase "Alpha PROJECT 7" = "alpha project 7".
Proof. reflexivity. Qed.

Example includes_sample :
  includes "etl tool" "tool" = true ∧ includes "etl tool" "pipe" = false.
Proof. split; reflexivity. Qed.

Lemma truthyStr_true s : truthyStr s = true ↔ s ≠ EmptyString.
Proof. destruct s; simpl; split; intros; congruence. Qed.

Lemma truthyStr_false s : truthyStr s = false ↔ s = EmptyString.
Proof. destruct s; simpl; split; intros; congruence. Qed.



Lemma toLowerCase_empty s : toLowerCase s = EmptyString ↔ s = EmptyString.
Proof. destruct s; simpl; split; intros; congruence. Qed.

Lemma trimStart_empty s : trimStart s = EmptyString ↔ allWhiteSpace s = true.
Proof.
  induction s as [|c s IH]; simpl; [done|].
  destruct (isWhiteSpace c); simpl; [done|]. split; intros; congruence.
Qed.

Lemma trimEnd_empty s : trimEnd s = EmptyString ↔ allWhiteSpace s = true.
Proof.
  induction s as [|c s IH]; simpl; [done|].
  destruct (trimEnd s) eqn:E.
  - destruct (isWhiteSpace c); simpl.
    + split; [intros _; by apply IH | done].
    + split; intros; congruence.
  - split; [done|]. intros [_ H]%andb_prop. apply IH in H. congruence.
Qed.

Lemma trimEnd_nonempty c s :
  isWhiteSpace c = false → trimEnd (String c s) ≠ EmptyString.
Proof. simpl. intros ->. by destruct (trimEnd s). Qed.

(** A string trims to the empty string exactly when it is white space
    only. *)
Lemma trim_empty s : trim s = EmptyString ↔ allWhiteSpace s = true.
Proof.
  unfold trim. induction s as [|c s IH]; simpl; [done|].
  destruct (isWhiteSpace c) eqn:E; simpl; [done|].
  split; [|done]. intros H. by apply (trimEnd_nonempty c s) in H.
Qed.

Lemma trim_EmptyString : trim EmptyString = EmptyString.
Proof. reflexivity. Qed.

Lemma app_nil_l s : EmptyString +:+ s = s.
Proof. reflexivity. Qed.

Lemma app_cons c s t : String c s +:+ t = String c (s +:+ t).
Proof. reflexivity. Qed.

(** [startsWith] and [includes] against their declarative readings. *)
Lemma startsWith_spec s p :
  startsWith s p = true ↔ ∃ post, s = p +:+ post.
Proof.
  revert s. induction p as [|a p IH]; intros s; simpl.
  - split; [intros _; exists s; by rewrite app_nil_l | done].
  - destruct s as [|b s].
    + split; [done | intros [post H]; rewrite app_cons in H; discriminate H].
    + case_decide as Hab.
      * subst b. rewrite IH. split.
        -- intros [post ->]. exists post. by rewrite app_cons.
        -- intros [post H]. rewrite app_cons in H. injection H as ->. by exists post.
      * split; [done|]. intros [post H]. rewrite app_cons in H.
        injection H as H1 H2. congruence.
Qed.

Lemma includes_spec s p :
  includes s p = true ↔ ∃ pre post, s = pre +:+ p +:+ post.
Proof.
  induction s as [|c s IH]; simpl.
  - rewrite orb_false_r, startsWith_spec. split.
    + intros [post H]. exists EmptyString, post. by rewrite app_nil_l.
    + intros [pre [post H]]. destruct pre.
      * rewrite app_nil_l in H. by exists post.
      * rewrite app_cons in H. discriminate H.
  - rewrite orb_true_iff, IH, startsWith_spec. split.
    + intros [[post H] | [pre [post H]]].
      * exists EmptyString, post. by rewrite app_nil_l.
      * exists (String c pre), post. by rewrite app_cons, H.
    + intros [pre [post H]]. destruct pre as [|c' pre].
      * left. rewrite app_nil_l in H. by exists post.
      * right. rewrite app_cons in H. injection H as H1 H2. by exists pre, post.
Qed.


(** ** The match engine *)

Lemma or_else_default a s : ∃ r, or_else a (Some s) = Some r.
Proof. unfold or_else. destruct (truthy a) eqn:E; [|by eexists]. destruct a; [by eexists | done]. Qed.

Lemma or_else_truthy a s : s ≠ EmptyString → truthy (or_else a (Some s)) = true.
Proof.
  intros Hs. unfold or_else. destruct (truthy a) eqn:E; [done|].
  simpl. by apply truthyStr_true.
Qed.

Lemma or_else_falsy a b : truthy a = false → or_else a b = b.
Proof. unfold or_else. by intros ->. Qed.

Lemma truthy_Some_nonempty v : truthy v = true → ∃ s, v = Some s ∧ s ≠ EmptyString.
Proof. destruct v as [s|]; simpl; [|done]. intros H%truthyStr_true. by exists s. Qed.

(** The fields of a normalized row. *)
Lemma normalizeRow_fields (r : RawRow) :
  (∃ t d tm tg l,
      Title (normalizeRow r) = Some t ∧ Description (normalizeRow r) = Some d ∧
      Team (normalizeRow r) = Some tm ∧ Tags (normalizeRow r) = Some tg ∧
      Location (normalizeRow r) = Some l ∧ t ≠ EmptyString ∧ d ≠ EmptyString) ∧
  _raw (normalizeRow r) = r.
Proof.
  split; [|done]. simpl.
  destruct (truthy_Some_nonempty
    (or_else (or_else (optTrim (r !! "Title")) (optTrim (r !! "Name"))) (Some "(No title)")))
    as (t & Ht & Hne); [by apply or_else_truthy|].
  destruct (truthy_Some_nonempty
    (or_else (or_else (optTrim (r !! "Description")) (optTrim (r !! "About")))
             (Some "(No description)")))
    as (d & Hd & Hdne); [by apply or_else_truthy|].
  destruct (or_else_default (optTrim (r !! "Team")) EmptyString) as [tm Htm].
  destruct (or_else_default (optTrim (r !! "Tags")) EmptyString) as [tg Htg].
  destruct (or_else_default (optTrim (r !! "Location")) EmptyString) as [l Hl].
  by exists t, d, tm, tg, l.
Qed.

Lemma normalizeRow_searchable (r : RawRow) : searchable (normalizeRow r).
Proof.
  destruct (normalizeRow_fields r) as [(t & d & ? & ? & ? & Ht & Hd & _) _].
  split; [by exists t | by exists d].
Qed.

Lemma ciContains_includes field query :
  includes (toLowerCase field) (toLowerCase query) = true ↔ ciContains field query.
Proof. apply includes_spec. Qed.

Lemma Qualifies_fields query (f : Feed) t d :
  Title f = Some t → Description f = Some d →
  Qualifies query f ↔
  includes (toLowerCase t) (toLowerCase query) ||
  includes (toLowerCase d) (toLowerCase query) = true.
Proof.
  intros Ht Hd. rewrite orb_true_iff, !ciContains_includes. unfold Qualifies. split.
  - intros [(t' & Ht' & H) | (d' & Hd' & H)]; [left | right]; congruence.
  - intros [H | H]; [left; by exists t | right; by exists d].
Qed.

#[global] Instance Qualifies_dec query f : Decision (Qualifies query f).
Proof.
  unfold Qualifies.
  destruct (Title f) as [t|], (Description f) as [d|].
  - destruct (includes (toLowerCase t) (toLowerCase query)) eqn:Et.
    { left. left. exists t. split; [done|]. by apply ciContains_includes. }
    destruct (includes (toLowerCase d) (toLowerCase query)) eqn:Ed.
    { left. right. exists d. split; [done|]. by apply ciContains_includes. }
    right. intros [(t' & [= <-] & H) | (d' & [= <-] & H)];
      apply ciContains_includes in H; congruence.
  - destruct (includes (toLowerCase t) (toLowerCase query)) eqn:Et.
    { left. left. exists t. split; [done|]. by apply ciContains_includes. }
    right. intros [(t' & [= <-] & H) | (d' & [=] & H)].
    apply ciContains_includes in H; congruence.
  - destruct (includes (toLowerCase d) (toLowerCase query)) eqn:Ed.
    { left. right. exists d. split; [done|]. by apply ciContains_includes. }
    right. intros [(t' & [=] & H) | (d' & [= <-] & H)].
    apply ciContains_includes in H; congruence.
  - right. intros [(t' & [=] & H) | (d' & [=] & H)].
Defined.

(** On a readable record the filter predicate answers, and its answer
    is the declarative one. *)
Lemma exactMatch_searchable query f :
  searchable f →
  exactMatch (toLowerCase query) f = Some (bool_decide (Qualifies query f)).
Proof.
  intros [[t Ht] [d Hd]]. unfold exactMatch, lowerIncludes. rewrite Ht, Hd.
  destruct (includes (toLowerCase t) (toLowerCase query)) eqn:Et;
    [|destruct (includes (toLowerCase d) (toLowerCase query)) eqn:Ed].
  - f_equal. symmetry. apply bool_decide_eq_true_2.
    apply (Qualifies_fields query f t d Ht Hd). by rewrite Et.
  - f_equal. symmetry. apply bool_decide_eq_true_2.
    apply (Qualifies_fields query f t d Ht Hd). by rewrite Ed, orb_true_r.
  - f_equal. symmetry. apply bool_decide_eq_false_2. intros H.
    apply (Qualifies_fields query f t d Ht Hd) in H. by rewrite Et, Ed in H.
Qed.

Lemma filterE_searchable query feeds :
  Forall searchable feeds →
  filterE (exactMatch (toLowerCase query)) feeds = Some (filter (Qualifies query) feeds).
Proof.
  induction 1 as [|f feeds Hf _ IH]; simpl; [done|].
  rewrite (exactMatch_searchable query f Hf), IH. simpl.
  rewrite filter_cons. case_bool_decide; case_decide; done.
Qed.

Lemma blank_trim query : allWhiteSpace query = true → truthyStr (trim query) = false.
Proof. intros H. apply truthyStr_false. by apply trim_empty. Qed.

Lemma nonblank_trim query : allWhiteSpace query = false → truthyStr (trim query) = true.
Proof.
  intros H. apply truthyStr_true. intros E%trim_empty. congruence.
Qed.

Lemma absent_falsy v : absent v → truthy (optTrim v) = false.
Proof.
  intros [-> | (s & -> & Hs)]; [done|]. simpl. by apply blank_trim.
Qed.

(** Exact mode does not depend on the index when fuzzy matching is off,
    nor on the flag when there is no index. *)
Lemma exact_branch_unfold {Number} query feeds
    (fuseInstance : option (Fuse Number)) useFuzzy :
  useFuzzy = false ∨ fuseInstance = None →
  searchFeeds query feeds fuseInstance useFuzzy =
  if negb (truthyStr (trim query)) then Some []
  else r ← filterE (exactMatch (toLowerCase query)) feeds; Some (map exactResult r).
Proof.
  unfold searchFeeds. intros [-> | ->]; [done|]. by destruct useFuzzy.
Qed.

Lemma sampleFeeds_ascii : Forall asciiText sampleFeeds.
Proof.
  unfold sampleFeeds, sampleRows. repeat constructor; intros s [[= <-] | [= <-]]; reflexivity.
Qed.



(** The sample search, evaluated: only the first record qualifies. *)
Example sample_search_evaluated :
  searchFeeds "etl" sampleFeeds (Some sampleFuse) false =
  Some [exactResult (normalizeRow {[ "Title" := "Data Pipeline"; "Description" := " ETL tool " ]})].
Proof. vm_compute. reflexivity. Qed.

(** C3. With no index, a fuzzy search returns what the exact search
    returns on the same query and records (with or without an index), and
    on readable records it returns a result list, not an error. *)
Theorem searchFeeds_fuzzy_without_index {Number} (query : string) (feeds : list Feed)
    (fuseInstance : option (Fuse Number)) :
  searchFeeds query feeds None true = searchFeeds query feeds fuseInstance false ∧
  (Forall searchable feeds → is_Some (searchFeeds (Number:=Number) query feeds None true)).
Proof.
  split; [unfold searchFeeds; by destruct fuseInstance|]. intros Hfeeds.
  rewrite (exact_branch_unfold query feeds None true); [|by right].
  destruct (negb (truthyStr (trim query))); [done|].
  by rewrite (filterE_searchable query feeds Hfeeds).
Qed.

Lemma searchFeeds_fuzzy_without_index_witness :
  searchFeeds (Number:=nat) "pipe" sampleFeeds None true =
    searchFeeds "pipe" sampleFeeds None false ∧
  is_Some (searchFeeds (Number:=nat) "pipe" sampleFeeds None true).
Proof.
  destruct (searchFeeds_fuzzy_without_index (Number:=nat) "pipe" sampleFeeds None)
    as [Heq Hok].
  split; [exact Heq|]. apply Hok.
  apply Forall_fmap, Forall_true. intros r. apply normalizeRow_searchable.
Defined.

(** C6. Whatever the records, the index and the mode, a query that is
    empty or white space only yields the empty result list, not an
    error. *)
Theorem searchFeeds_blank_query {Number} (query : string) (feeds : list Feed)
    (fuseInstance : option (Fuse Number)) (useFuzzy : bool) :
  allWhiteSpace query = true →
  searchFeeds query feeds fuseInstance useFuzzy = Some [].
Proof.
  intros Hq. unfold searchFeeds. by rewrite (blank_trim _ Hq).
Qed.

Lemma searchFeeds_blank_query_witness :
  allWhiteSpace "   " = true ∧
  searchFeeds "   " sampleFeeds (Some sampleFuse) true = Some [].
Proof.
  split; [reflexivity|]. apply searchFeeds_blank_query. reflexivity.
Defined.

(** C8. Every record handed to [onSuccess] has strings in its five
    searchable fields; title and description are non-empty, and are the
    placeholders when their source cells are absent; team, tags and
    location are empty when theirs are. *)
Theorem loadProjectFeeds_normalized (o : SheetOutcome) (feeds : list Feed) (f : Feed) :
  loadProjectFeeds o = onSuccess feeds →
  f ∈ feeds →
  (∃ t d tm tg l,
      Title f = Some t ∧ Description f = Some d ∧ Team f = Some tm ∧
      Tags f = Some tg ∧ Location f = Some l ∧
      t ≠ EmptyString ∧ d ≠ EmptyString) ∧
  (absent (_raw f !! "Title") → absent (_raw f !! "Name") →
   Title f = Some "(No title)") ∧
  (absent (_raw f !! "Description") → absent (_raw f !! "About") →
   Description f = Some "(No description)") ∧
  (absent (_raw f !! "Team") → Team f = Some EmptyString) ∧
  (absent (_raw f !! "Tags") → Tags f = Some EmptyString) ∧
  (absent (_raw f !! "Location") → Location f = Some EmptyString).
Proof.
  intros Hload Hin.
  assert (∃ r, f = normalizeRow r) as [r ->].
  { destruct o as [| | |data]; simpl in Hload; try discriminate Hload.
    destruct data as [|r0 data]; [discriminate Hload|].
    injection Hload as <-. change (f ∈ normalizeRow <$> (r0 :: data)) in Hin.
    apply list_elem_of_fmap in Hin as (r & -> & _). by exists r. }
  split; [apply normalizeRow_fields|]. simpl.
  repeat split.
  - intros H1%absent_falsy H2%absent_falsy.
    by rewrite (or_else_falsy _ _ H1), (or_else_falsy _ _ H2).
  - intros H1%absent_falsy H2%absent_falsy.
    by rewrite (or_else_falsy _ _ H1), (or_else_falsy _ _ H2).
  - intros H1%absent_falsy. by rewrite (or_else_falsy _ _ H1).
  - intros H1%absent_falsy. by rewrite (or_else_falsy _ _ H1).
  - intros H1%absent_falsy. by rewrite (or_else_falsy _ _ H1).
Qed.

Lemma loadProjectFeeds_normalized_witness :
  Title (normalizeRow {[ "Team" := "Ops" ]}) = Some "(No title)" ∧
  Description (normalizeRow {[ "Team" := "Ops" ]}) = Some "(No description)" ∧
  Tags (normalizeRow {[ "Team" := "Ops" ]}) = Some EmptyString ∧
  Location (normalizeRow {[ "Team" := "Ops" ]}) = Some EmptyString.
Proof.
  assert (normalizeRow {[ "Team" := "Ops" ]} ∈ sampleFeeds) as Hin.
  { apply list_elem_of_further, list_elem_of_here. }
  destruct (loadProjectFeeds_normalized (SheetParsed sampleRows) sampleFeeds
              (normalizeRow {[ "Team" := "Ops" ]}) eq_refl Hin)
    as (_ & Ht & Hd & _ & Htg & Hl).
  split; [|split; [|split]].
  - apply Ht; by left.
  - apply Hd; by left.
  - apply Htg; by left.
  - apply Hl; by left.
Defined.

(** ** The title resolver *)

Import NLPURLResolver.




Lemma rowEntry_functional row t s t' s' :
  rowEntry row t s → rowEntry row t' s' → t = t' ∧ s = s'.
Proof. intros (Ht & Hs & _) (Ht' & Hs' & _). split; congruence. Qed.


Lemma set_lookup_ne m k v j : j ≠ k → PlainObject.set m k v !! j = m !! j.
Proof.
  intros H. unfold PlainObject.set. case_decide; [done|]. by rewrite lookup_insert_ne.
Qed.

Lemma set_lookup_Some m k v j w :
  PlainObject.set m k v !! j = Some w → (j = k ∧ w = v) ∨ m !! j = Some w.
Proof.
  unfold PlainObject.set. case_decide; [by right|].
  intros [[<- <-] | [_ H']]%lookup_insert_Some; [by left | by right].
Qed.


Lemma set_union m1 m2 k v : PlainObject.set (m1 ∪ m2) k v = PlainObject.set m1 k v ∪ m2.
Proof. unfold PlainObject.set. case_decide; [done|]. by rewrite insert_union_l. Qed.


(** What [addRow] does, read off the row. *)
Lemma addRow_entry m row t s :
  rowEntry row t s →
  addRow m row = PlainObject.set (PlainObject.set m t s) (toLowerCase t) s.
Proof.
  intros (Ht & Hs & Htne & Hsne). unfold addRow. rewrite Ht, Hs.
  apply truthyStr_true in Htne, Hsne. by rewrite Htne, Hsne.
Qed.

Lemma addRow_cases m row :
  (∃ t s, rowEntry row t s ∧
          addRow m row = PlainObject.set (PlainObject.set m t s) (toLowerCase t) s) ∨
  ((∀ t s, ¬ rowEntry row t s) ∧ addRow m row = m).
Proof.
  unfold addRow, rowEntry.
  destruct (optTrim (row !! "Title")) as [t|] eqn:Et; [|right; split; [|done]; by intros t s (? & _)].
  destruct (optTrim (row !! "Feed")) as [s|] eqn:Es;
    [|right; split; [|done]; by intros t' s' (_ & ? & _)].
  destruct (truthyStr t) eqn:Ht; simpl.
  - destruct (truthyStr s) eqn:Hs.
    + left. exists t, s. apply truthyStr_true in Ht, Hs. done.
    + right. split; [|done]. apply truthyStr_false in Hs.
      intros t' s' (_ & [= <-] & _ & ?). done.
  - right. split; [|done]. apply truthyStr_false in Ht.
    intros t' s' ([= <-] & _ & ? & _). done.
Qed.

(** A row missing its title or its slug leaves the table as it is. *)
Lemma addRow_skip m row : (∀ t s, ¬ rowEntry row t s) → addRow m row = m.
Proof.
  intros Hno. destruct (addRow_cases m row) as [(t & s & H & _) | [_ H]]; [|done].
  by destruct (Hno t s).
Qed.

Lemma addRow_union m1 m2 row : addRow (m1 ∪ m2) row = addRow m1 row ∪ m2.
Proof.
  destruct (addRow_cases m1 row) as [(t & s & H & ->) | [H ->]].
  - rewrite (addRow_entry _ row t s H). by rewrite !set_union.
  - by apply addRow_skip.
Qed.

Lemma foldl_addRow_union m1 m2 data :
  foldl addRow (m1 ∪ m2) data = foldl addRow m1 data ∪ m2.
Proof.
  revert m1. induction data as [|row data IH]; intros m1; simpl; [done|].
  by rewrite addRow_union, IH.
Qed.

(** Loading a dataset into a table merges the dataset's own table over
    it. *)
Lemma foldl_addRow_merge m data : foldl addRow m data = freshTable data ∪ m.
Proof.
  unfold freshTable. rewrite <- foldl_addRow_union. by rewrite (left_id_L ∅ (∪)).
Qed.

(** Where an entry of a loaded table comes from. *)
Lemma foldl_addRow_origin m data k v :
  foldl addRow m data !! k = Some v →
  m !! k = Some v ∨
  ∃ row t, row ∈ data ∧ rowEntry row t v ∧ (k = t ∨ k = toLowerCase t).
Proof.
  revert m. induction data as [|row data IH]; intros m; simpl; [by left|].
  intros [H | (row' & t & Hin & Hrow & Hk)]%IH.
  - destruct (addRow_cases m row) as [(t & s & Hrow & E) | [_ E]]; rewrite E in H; [|by left].
    apply set_lookup_Some in H as [[-> ->] | H].
    { right. exists row, t. split; [apply list_elem_of_here|]. split; [done|]. by right. }
    apply set_lookup_Some in H as [[-> ->] | H]; [|by left].
    right. exists row, t. split; [apply list_elem_of_here|]. split; [done|]. by left.
  - right. exists row', t. split; [by apply list_elem_of_further|]. done.
Qed.



(** What [init] leaves in the table, by outcome. *)
Lemma init_table this o :
  listsMapping (init this o).1 =
  match o with
  | CsvParsed data => freshTable data ∪ listsMapping this
  | _ => listsMapping this
  end.
Proof.
  destruct o as [| | |data]; try done.
  destruct data as [|row data]; simpl.
  - unfold freshTable. simpl. by rewrite (left_id_L ∅ (∪)).
  - by rewrite <- (foldl_addRow_merge (listsMapping this) (row :: data)).
Qed.

Lemma init_new_table origin data :
  listsMapping (init (new origin) (CsvParsed data)).1 = freshTable data.
Proof. rewrite init_table. simpl. by rewrite (right_id_L ∅ (∪)). Qed.

Lemma init_baseURL this o : baseURL (init this o).1 = baseURL this.
Proof. destruct o as [| | |[|row data]]; done. Qed.


(** [init] reports what it leaves in [isLoaded]. *)
Lemma init_isLoaded this o : isLoaded (init this o).1 = (init this o).2.
Proof. destruct o as [| | |[|row data]]; done. Qed.

Lemma init_succeeds this o :
  (init this o).2 = true ↔ ∃ row data, o = CsvParsed (row :: data).
Proof.
  destruct o as [| | |[|row data]]; simpl; split; try done.
  - by intros (? & ? & ?).
  - by intros (? & ? & ?).
  - by intros (? & ? & ?).
  - by intros (? & ? & ?).
  - intros _. by exists row, data.
Qed.

(** The table of a resolver the page can hold is the table of the
    datasets loaded so far, one after the other. *)
Lemma reachable_table this : reachable this → ∃ data, listsMapping this = freshTable data.
Proof.
  induction 1 as [origin | this o _ [data IH]].
  - by exists [].
  - destruct o as [| | |data']; try by exists data.
    exists (data ++ data'). rewrite init_table, IH.
    unfold freshTable at 3. rewrite foldl_app. fold (freshTable data).
    by rewrite foldl_addRow_merge.
Qed.

(** Keys and slugs of a dataset's table are non-empty. *)
Lemma freshTable_nonempty data k v :
  freshTable data !! k = Some v → k ≠ EmptyString ∧ v ≠ EmptyString.
Proof.
  intros [H | (row & t & _ & (_ & _ & Ht & Hv) & Hk)]%foldl_addRow_origin; [done|].
  split; [|done]. destruct Hk as [-> | ->]; [done|]. by rewrite toLowerCase_empty.
Qed.

Lemma reachable_nonempty this k v :
  reachable this → listsMapping this !! k = Some v → k ≠ EmptyString ∧ v ≠ EmptyString.
Proof. intros [data ->]%reachable_table. apply freshTable_nonempty. Qed.


Lemma get_not_own own k :
  own !! k = None → PlainObject.get own k = PlainObject.objectPrototype k.
Proof. intros H. unfold PlainObject.get. by rewrite H. Qed.

Lemma get_EmptyString own :
  own !! EmptyString = None → PlainObject.get own EmptyString = None.
Proof. intros H. by rewrite get_not_own. Qed.



Lemma getProjectPageURL_miss this title fallbackURL :
  PlainObject.truthyMember (PlainObject.get (listsMapping this) (trim title)) = false →
  PlainObject.truthyMember
    (PlainObject.get (listsMapping this) (toLowerCase (trim title))) = false →
  getProjectPageURL this (Some title) fallbackURL = default "#" fallbackURL.
Proof.
  intros H1 H2. unfold getProjectPageURL.
  destruct (isLoaded this); cbn [negb truthy]; [|done].
  destruct (truthyStr title); cbn [negb]; [|done].
  rewrite H1. cbn [negb]. rewrite H2.
  by destruct (PlainObject.get (listsMapping this) (toLowerCase (trim title))).
Qed.

(** C1, as the code has it. [init] writes the entries built from the
    newly fetched dataset over the table it finds: an entry of an earlier
    build stays unless the new dataset produces an entry under the same
    key, which then replaces it; a load that fails leaves the table as it
    was. *)
Theorem init_merges (this : t) (o : CsvOutcome) (k : string) :
  listsMapping (init this o).1 !! k =
  match o with
  | CsvParsed data =>
      match freshTable data !! k with
      | Some v => Some v
      | None => listsMapping this !! k
      end
  | _ => listsMapping this !! k
  end.
Proof.
  rewrite init_table. destruct o as [| | |data]; try done.
  destruct (freshTable data !! k) as [v|] eqn:E.
  - by apply lookup_union_Some_l.
  - by rewrite lookup_union_r.
Qed.

(** C1 fails as stated: after a second [init] on a dataset that has no
    row for it, the entry of the first build is still in the table, which
    is therefore not the table built from the new dataset alone. *)
Lemma init_twice_keeps_first_build :
  let first := (init (new "https://example.org") (CsvParsed [listRow "Alpha" "alpha"])).1 in
  let second := (init first (CsvParsed [listRow "Beta" "beta"])).1 in
  listsMapping second !! "Alpha" = Some "alpha" ∧
  freshTable [listRow "Beta" "beta"] !! "Alpha" = None ∧
  listsMapping second ≠ freshTable [listRow "Beta" "beta"].
Proof.
  split; [|split].
  - vm_compute. reflexivity.
  - vm_compute. reflexivity.
  - intros H. apply (f_equal (λ m : gmap string string, m !! "Alpha")) in H.
    vm_compute in H. discriminate H.
Qed.




Lemma sampleResolver_table : listsMapping sampleResolver = freshTable [listRow "Alpha Project" "alpha"].
Proof. apply init_new_table. Qed.

Lemma listRow_entry title feed :
  trim title ≠ EmptyString → trim feed ≠ EmptyString →
  rowEntry (listRow title feed) (trim title) (trim feed).
Proof.
  intros Ht Hf. unfold rowEntry, listRow. split_and!; [| |done|done].
  - by rewrite lookup_insert_eq.
  - rewrite lookup_insert_ne by done. by rewrite lookup_singleton_eq.
Qed.




(** A resolver is not ready when new and after an [init] that reported
    failure. *)
Lemma new_not_ready origin : isLoaded (new origin) = false.
Proof. done. Qed.

Lemma failed_init_not_ready this o : (init this o).2 = false → isLoaded (init this o).1 = false.
Proof. by rewrite init_isLoaded. Qed.

Lemma sampleResolver_keys k :
  is_Some (listsMapping sampleResolver !! k) → k = "Alpha Project" ∨ k = "alpha project".
Proof.
  rewrite sampleResolver_table. intros [v Hk].
  apply foldl_addRow_origin in Hk as [Hk | (row & t & ->%list_elem_of_singleton & Hrow & Hkt)];
    [done|].
  destruct (rowEntry_functional _ _ _ _ _ Hrow
              (listRow_entry "Alpha Project" "alpha" ltac:(done) ltac:(done))) as [-> _].
  exact Hkt.
Qed.

(** Where the code does return the fallback URL: the resolver is not
    ready, the title is absent or empty, or neither the trimmed title nor
    its lowercased form is a key with a non-empty slug or the name of a
    member that every object inherits. *)
Lemma fallback_cases (this : t) (projectTitle fallbackURL : option string) :
  isLoaded this = false ∨
  projectTitle = None ∨
  projectTitle = Some EmptyString ∨
  (∃ title, projectTitle = Some title ∧
     PlainObject.truthyMember (PlainObject.get (listsMapping this) (trim title)) = false ∧
     PlainObject.truthyMember
       (PlainObject.get (listsMapping this) (toLowerCase (trim title))) = false) →
  getProjectPageURL this projectTitle fallbackURL = default "#" fallbackURL.
Proof.
  intros [Hl | [-> | [-> | (title & -> & H1 & H2)]]].
  - unfold getProjectPageURL. by rewrite Hl.
  - unfold getProjectPageURL. by destruct (isLoaded this).
  - unfold getProjectPageURL. by destruct (isLoaded this).
  - by apply getProjectPageURL_miss.
Qed.

(** C5 fails on the code. The table of the sample resolver has the two
    keys of its one row, none of them a case variant of [constructor];
    yet that title resolves not to the fallback URL but to a URL built
    from the constructor function that the table object inherits. *)
Theorem getProjectPageURL_inherited_name :
  isLoaded sampleResolver = true ∧
  (∀ k, is_Some (listsMapping sampleResolver !! k) → ¬ caseVariant k (trim "constructor")) ∧
  getProjectPageURL sampleResolver (Some "constructor") (Some "https://x") =
    "https://example.org/team/projects/#list=function Object() { [native code] }&display=table" ∧
  getProjectPageURL sampleResolver (Some "constructor") (Some "https://x") ≠ "https://x".
Proof.
  split; [reflexivity|]. split; [|split].
  - intros k [-> | ->]%sampleResolver_keys; vm_compute; discriminate.
  - vm_compute. reflexivity.
  - vm_compute. discriminate.
Qed.

(** C10. On a loaded resolver that the page can hold, a non-empty title
    made of white space only resolves to the fallback URL: it trims to
    the empty string, which is no key of the table. *)
Theorem getProjectPageURL_whitespace_title (this : t) (title fb : string) :
  reachable this →
  isLoaded this = true →
  title ≠ EmptyString →
  allWhiteSpace title = true →
  truthy (Some title) = true ∧
  trim title = EmptyString ∧
  listsMapping this !! EmptyString = None ∧
  getProjectPageURL this (Some title) (Some fb) = fb.
Proof.
  intros Hreach _ Hne Hws.
  split; [by apply truthyStr_true|].
  assert (trim title = EmptyString) as Htrim by by apply trim_empty.
  assert (listsMapping this !! EmptyString = None) as Hkey.
  { destruct (listsMapping this !! EmptyString) as [v|] eqn:E; [|done].
    by destruct (reachable_nonempty this EmptyString v Hreach E). }
  split; [done|]. split; [done|].
  apply (getProjectPageURL_miss this title (Some fb)); rewrite Htrim; simpl;
    by rewrite (get_EmptyString _ Hkey).
Qed.

Lemma sampleResolver_reachable : reachable sampleResolver.
Proof. apply reachable_init, reachable_new. Qed.

Lemma getProjectPageURL_whitespace_title_witness :
  getProjectPageURL sampleResolver (Some "   ") (Some "https://x") = "https://x".
Proof.
  eapply (getProjectPageURL_whitespace_title sampleResolver "   " "https://x").
  - apply sampleResolver_reachable.
  - reflexivity.
  - discriminate.
  - reflexivity.
Defined.




(** * Further properties *)

(** ** More on the string primitives *)

Lemma app_nil_r s : s +:+ EmptyString = s.
Proof. induction s as [|c s IH]; [done|]. by rewrite app_cons, IH. Qed.

Lemma app_assoc_str s t u : (s +:+ t) +:+ u = s +:+ t +:+ u.
Proof. induction s as [|c s IH]; [done|]. by rewrite !app_cons, IH. Qed.

Lemma app_empty s t : s +:+ t = EmptyString → s = EmptyString ∧ t = EmptyString.
Proof. destruct s; [by rewrite app_nil_l | rewrite app_cons; discriminate]. Qed.

Lemma toLowerCase_app s t : toLowerCase (s +:+ t) = toLowerCase s +:+ toLowerCase t.
Proof. induction s as [|c s IH]; [done|]. rewrite app_cons. simpl. by rewrite IH, app_cons. Qed.

Lemma isWhiteSpace_lowerChar c : isWhiteSpace (lowerChar c) = isWhiteSpace c.
Proof. destruct c as [[] [] [] [] [] [] [] []]; reflexivity. Qed.

Lemma allWhiteSpace_toLowerCase s : allWhiteSpace (toLowerCase s) = allWhiteSpace s.
Proof. induction s as [|c s IH]; simpl; [done|]. by rewrite isWhiteSpace_lowerChar, IH. Qed.

Lemma trimStart_head s :
  trimStart s = EmptyString ∨ ∃ c r, trimStart s = String c r ∧ isWhiteSpace c = false.
Proof.
  induction s as [|c s IH]; simpl; [by left|].
  destruct (isWhiteSpace c) eqn:E; [done|]. right. by exists c, s.
Qed.

Lemma trimEnd_cons c s : isWhiteSpace c = false → trimEnd (String c s) = String c (trimEnd s).
Proof. simpl. intros ->. by destruct (trimEnd s). Qed.

Lemma trimEnd_idemp s : trimEnd (trimEnd s) = trimEnd s.
Proof.
  induction s as [|c s IH]; simpl; [done|].
  destruct (trimEnd s) as [|c' t] eqn:E.
  - destruct (isWhiteSpace c) eqn:Ec; simpl; [done|]. by rewrite Ec.
  - simpl. simpl in IH. by rewrite IH.
Qed.

(** Trimming twice is trimming once. *)
Lemma trim_idemp s : trim (trim s) = trim s.
Proof.
  unfold trim. destruct (trimStart_head s) as [-> | (c & r & -> & Hc)]; [done|].
  rewrite (trimEnd_cons c r Hc). simpl. rewrite Hc.
  rewrite <- (trimEnd_cons c r Hc). apply trimEnd_idemp.
Qed.

(** A trimmed string is white space only just when it is empty. *)
Lemma trim_blank s : allWhiteSpace (trim s) = true ↔ trim s = EmptyString.
Proof. rewrite <- trim_empty. by rewrite trim_idemp. Qed.

Lemma trim_nonblank s : trim s ≠ EmptyString → allWhiteSpace (trim s) = false.
Proof. intros H. destruct (allWhiteSpace (trim s)) eqn:E; [|done]. by apply trim_blank in E. Qed.

Lemma join_app l1 l2 : join (l1 ++ l2) = join l1 +:+ join l2.
Proof.
  unfold join. induction l1 as [|s l1 IH]; simpl; [done|].
  by rewrite IH, app_assoc_str.
Qed.

Lemma join_empty l : join l = EmptyString ↔ Forall (λ s, s = EmptyString) l.
Proof.
  unfold join. induction l as [|s l IH]; simpl.
  - split; [by constructor | done].
  - split.
    + intros [-> H]%app_empty. constructor; [done|]. by apply IH.
    + intros H. inversion H as [|? ? -> Hl]. apply IH in Hl. by rewrite Hl.
Qed.

Lemma lowerChar_upperChar c : lowerChar (upperChar c) = lowerChar c.
Proof. destruct c as [[] [] [] [] [] [] [] []]; reflexivity. Qed.

Lemma upperChar_idemp c : upperChar (upperChar c) = upperChar c.
Proof. destruct c as [[] [] [] [] [] [] [] []]; reflexivity. Qed.

(** ** More on the match engine *)

Lemma allWhiteSpace_app s t : allWhiteSpace (s +:+ t) = allWhiteSpace s && allWhiteSpace t.
Proof.
  induction s as [|c s IH]; [done|]. rewrite app_cons. simpl.
  by rewrite IH, andb_assoc.
Qed.

Lemma ciContains_refl s : ciContains s s.
Proof. exists EmptyString, EmptyString. by rewrite app_nil_l, app_nil_r. Qed.

Lemma ciContains_trans field q2 q1 : ciContains field q2 → ciContains q2 q1 → ciContains field q1.
Proof.
  intros (p & s & Hf) (p' & s' & Hq). exists (p +:+ p'), (s' +:+ s).
  by rewrite Hf, Hq, !app_assoc_str.
Qed.

Lemma ciContains_nonblank q2 q1 :
  ciContains q2 q1 → allWhiteSpace q1 = false → allWhiteSpace q2 = false.
Proof.
  intros (p & s & Hq) H1. rewrite <- allWhiteSpace_toLowerCase, Hq, !allWhiteSpace_app.
  by rewrite allWhiteSpace_toLowerCase, H1, andb_false_r.
Qed.

Lemma Qualifies_weaken q1 q2 f : ciContains q2 q1 → Qualifies q2 f → Qualifies q1 f.
Proof.
  intros Hq [(t & Ht & H) | (d & Hd & H)]; [left; exists t | right; exists d];
    (split; [done|]); by apply (ciContains_trans _ q2).
Qed.

Lemma filter_sublist_mono {A} (P Q : A → Prop) `{!∀ x, Decision (P x)} `{!∀ x, Decision (Q x)}
    (l : list A) :
  (∀ x, P x → Q x) → filter P l `sublist_of` filter Q l.
Proof.
  intros HPQ. induction l as [|x l IH]; [done|].
  rewrite !filter_cons. destruct (decide (P x)) as [HP|HP].
  - rewrite decide_True by auto. by apply sublist_skip.
  - destruct (decide (Q x)); [by apply sublist_cons | done].
Qed.

Lemma exact_search_result {Number} query (feeds : list Feed)
    (fuseInstance : option (Fuse Number)) useFuzzy :
  allWhiteSpace query = false →
  useFuzzy = false ∨ fuseInstance = None →
  Forall searchable feeds →
  searchFeeds query feeds fuseInstance useFuzzy =
  Some (exactResult <$> filter (Qualifies query) feeds).
Proof.
  intros Hq Hmode Hfeeds.
  rewrite (exact_branch_unfold _ _ _ _ Hmode), (nonblank_trim _ Hq). simpl.
  by rewrite (filterE_searchable query feeds Hfeeds).
Qed.

(** X1. In exact mode the case of the query does not matter: two
    queries with the same lowercased form give the same answer, on any
    record list. *)
Theorem searchFeeds_query_case {Number} (query1 query2 : string) (feeds : list Feed)
    (fuseInstance : option (Fuse Number)) (useFuzzy : bool) :
  useFuzzy = false ∨ fuseInstance = None →
  toLowerCase query1 = toLowerCase query2 →
  searchFeeds query1 feeds fuseInstance useFuzzy =
  searchFeeds query2 feeds fuseInstance useFuzzy.
Proof.
  intros Hmode Hq. rewrite !(exact_branch_unfold _ _ _ _ Hmode), Hq.
  assert (truthyStr (trim query1) = truthyStr (trim query2)) as ->; [|done].
  assert (allWhiteSpace query1 = allWhiteSpace query2) as Hws.
  { by rewrite <- (allWhiteSpace_toLowerCase query1), Hq, allWhiteSpace_toLowerCase. }
  destruct (allWhiteSpace query2) eqn:E.
  - by rewrite (blank_trim _ Hws), (blank_trim _ E).
  - by rewrite (nonblank_trim _ Hws), (nonblank_trim _ E).
Qed.

Lemma searchFeeds_query_case_witness :
  searchFeeds "ETL Tool" sampleFeeds (Some sampleFuse) false =
  searchFeeds "etl tool" sampleFeeds (Some sampleFuse) false.
Proof. apply searchFeeds_query_case; [by left | reflexivity]. Defined.

(** X2. In exact mode, on readable records and for ASCII text, a query
    that contains another one (case being ignored) finds a sublist of
    what the other finds: lengthening a query narrows the results and
    keeps their order. *)
Theorem searchFeeds_longer_query_narrows {Number} (query1 query2 : string)
    (feeds : list Feed) (fuseInstance : option (Fuse Number)) (useFuzzy : bool) :
  isASCII query1 = true →
  isASCII query2 = true →
  Forall asciiText feeds →
  useFuzzy = false ∨ fuseInstance = None →
  Forall searchable feeds →
  allWhiteSpace query1 = false →
  ciContains query2 query1 →
  ∃ results1 results2,
    searchFeeds query1 feeds fuseInstance useFuzzy = Some results1 ∧
    searchFeeds query2 feeds fuseInstance useFuzzy = Some results2 ∧
    results2 `sublist_of` results1.
Proof.
  intros _ _ _ Hmode Hfeeds Hq1 Hq.
  exists (exactResult <$> filter (Qualifies query1) feeds),
         (exactResult <$> filter (Qualifies query2) feeds).
  split; [by apply exact_search_result|].
  split; [apply exact_search_result; try done; by apply (ciContains_nonblank query2 query1)|].
  apply fmap_sublist, filter_sublist_mono. intros f. by apply Qualifies_weaken.
Qed.

Lemma searchFeeds_longer_query_narrows_witness :
  ∃ results1 results2,
    searchFeeds (Number:=nat) "pipe" sampleFeeds None true = Some results1 ∧
    searchFeeds (Number:=nat) "Data Pipeline" sampleFeeds None true = Some results2 ∧
    results2 `sublist_of` results1.
Proof.
  apply searchFeeds_longer_query_narrows.
  - reflexivity.
  - reflexivity.
  - apply sampleFeeds_ascii.
  - by right.
  - apply Forall_fmap, Forall_true. intros r. apply normalizeRow_searchable.
  - reflexivity.
  - exists "data ", "line". reflexivity.
Defined.

(** The value of a normalized field is a trimmed cell or a literal
    default, hence a trimmed string. *)
Lemma or_else_trimmed a d :
  trim d = d → ∃ s, or_else (optTrim a) (Some d) = Some s ∧ trim s = s.
Proof.
  intros Hd. unfold or_else. destruct (truthy (optTrim a)) eqn:E; [|by exists d].
  destruct a as [x|]; [|done]. exists (trim x). split; [done|]. apply trim_idemp.
Qed.

Lemma or_else2_trimmed a b d :
  trim d = d → ∃ s, or_else (or_else (optTrim a) (optTrim b)) (Some d) = Some s ∧ trim s = s.
Proof.
  intros Hd. unfold or_else at 2. destruct (truthy (optTrim a)) eqn:E.
  - by apply or_else_trimmed.
  - by apply or_else_trimmed.
Qed.

Lemma loadProjectFeeds_rows o feeds :
  loadProjectFeeds o = onSuccess feeds →
  ∃ data, o = SheetParsed data ∧ data ≠ [] ∧ feeds = normalizeRow <$> data.
Proof.
  destruct o as [| | |data]; simpl; try discriminate.
  destruct data as [|r data]; [discriminate|]. intros [= <-]. by exists (r :: data).
Qed.

Lemma normalizeRow_trimmed (r : RawRow) v :
  v ∈ [Title (normalizeRow r); Description (normalizeRow r); URL (normalizeRow r);
       Team (normalizeRow r); Status (normalizeRow r); Location (normalizeRow r);
       Tags (normalizeRow r)] →
  ∃ s, v = Some s ∧ trim s = s.
Proof.
  intros Hv. simpl in Hv. repeat (apply elem_of_cons in Hv as [-> | Hv]);
    [by apply or_else2_trimmed .. | by apply or_else_trimmed | by apply or_else_trimmed
     | by apply or_else_trimmed | by apply or_else_trimmed | by apply elem_of_nil in Hv].
Qed.

(** X3. Every field of a record handed to [onSuccess], the seven of
    them, is a string that trimming leaves as it is: a normalized record
    carries no leading or trailing white space, and no [undefined]
    field. *)
Theorem loadProjectFeeds_fields_trimmed (o : SheetOutcome) (feeds : list Feed) (f : Feed) :
  loadProjectFeeds o = onSuccess feeds →
  f ∈ feeds →
  ∀ v, v ∈ [Title f; Description f; URL f; Team f; Status f; Location f; Tags f] →
       ∃ s, v = Some s ∧ trim s = s.
Proof.
  intros (data & _ & _ & ->)%loadProjectFeeds_rows (r & -> & _)%list_elem_of_fmap v.
  apply normalizeRow_trimmed.
Qed.

Lemma loadProjectFeeds_fields_trimmed_witness :
  ∃ s, Title (normalizeRow {[ "Name" := "  Solar Map  " ]}) = Some s ∧ trim s = s.
Proof.
  apply (loadProjectFeeds_fields_trimmed
           (SheetParsed [ {[ "Name" := "  Solar Map  " ]} ])
           [normalizeRow {[ "Name" := "  Solar Map  " ]}]
           (normalizeRow {[ "Name" := "  Solar Map  " ]})).
  - reflexivity.
  - apply list_elem_of_here.
  - apply list_elem_of_here.
Defined.

(** X4. [loadProjectFeeds] calls [onSuccess] exactly when the parser
    delivers at least one row, and then with one record per row, in the
    order of the rows, each keeping its row in [_raw]; in every other
    case it calls [onError]. *)
Theorem loadProjectFeeds_outcome (o : SheetOutcome) :
  (∀ feeds, loadProjectFeeds o = onSuccess feeds →
            ∃ data, o = SheetParsed data ∧ data ≠ [] ∧ _raw <$> feeds = data) ∧
  (∀ data, o = SheetParsed data → data ≠ [] →
           ∃ feeds, loadProjectFeeds o = onSuccess feeds ∧ _raw <$> feeds = data) ∧
  ((∀ data, o = SheetParsed data → data = []) →
   ∃ errorMessage, loadProjectFeeds o = onError errorMessage).
Proof.
  assert (∀ data : list RawRow, _raw <$> (normalizeRow <$> data) = data) as Hraw.
  { intros data. rewrite <- list_fmap_compose. apply list_fmap_id. }
  split; [|split].
  - intros feeds (data & -> & Hne & ->)%loadProjectFeeds_rows. by exists data.
  - intros data -> Hne. destruct data as [|r data]; [done|].
    exists (normalizeRow <$> (r :: data)). split; [done|]. apply Hraw.
  - intros Hno. destruct o as [m|st|e|data]; simpl; try by eexists.
    rewrite (Hno data eq_refl). by eexists.
Qed.

Lemma loadProjectFeeds_outcome_witness :
  (∃ feeds, loadProjectFeeds (SheetParsed sampleRows) = onSuccess feeds ∧
            _raw <$> feeds = sampleRows) ∧
  (∃ errorMessage, loadProjectFeeds (SheetParsed []) = onError errorMessage).
Proof.
  split.
  - destruct (loadProjectFeeds_outcome (SheetParsed sampleRows)) as (_ & H & _).
    by apply (H sampleRows).
  - destruct (loadProjectFeeds_outcome (SheetParsed [])) as (_ & _ & H).
    apply H. by intros data [= <-].
Defined.

(** X5. After a successful load, an exact search for the title of any
    loaded record finds that record. *)
Theorem search_finds_own_title {Number} (o : SheetOutcome) (feeds : list Feed) (f : Feed)
    (fuseInstance : option (Fuse Number)) :
  loadProjectFeeds o = onSuccess feeds →
  f ∈ feeds →
  ∃ title results,
    Title f = Some title ∧
    searchFeeds title feeds fuseInstance false = Some results ∧
    exactResult f ∈ results.
Proof.
  intros (data & _ & _ & ->)%loadProjectFeeds_rows Hin.
  assert (∃ t, Title f = Some t ∧ trim t = t ∧ t ≠ EmptyString) as (t & Ht & Htrim & Hne).
  { apply list_elem_of_fmap in Hin as (r & -> & _).
    destruct (normalizeRow_trimmed r (Title (normalizeRow r))) as (t & Ht & Htrim);
      [apply list_elem_of_here|].
    exists t. split; [done|]. split; [done|].
    destruct (normalizeRow_fields r) as [(t' & ? & ? & ? & ? & Ht' & _ & _ & _ & _ & H & _) _].
    congruence. }
  exists t, (exactResult <$> filter (Qualifies t) (normalizeRow <$> data)).
  split; [done|]. split.
  - apply exact_search_result; [|by left|].
    + rewrite <- Htrim. apply trim_nonblank. by rewrite Htrim.
    + apply Forall_fmap, Forall_true. intros r. apply normalizeRow_searchable.
  - apply list_elem_of_fmap. exists f. split; [done|].
    apply list_elem_of_filter. split; [|done].
    left. exists t. split; [done|]. apply ciContains_refl.
Qed.

Lemma search_finds_own_title_witness :
  ∃ title results,
    Title (normalizeRow {[ "Team" := "Ops" ]}) = Some title ∧
    searchFeeds title sampleFeeds (Some sampleFuse) false = Some results ∧
    exactResult (normalizeRow {[ "Team" := "Ops" ]}) ∈ results.
Proof.
  apply (search_finds_own_title (SheetParsed sampleRows)).
  - reflexivity.
  - apply list_elem_of_further, list_elem_of_here.
Defined.

(** ** Rendering and the search page *)

Import Rendering NLPSearchPage.

Lemma renderCard_nonempty {Number} urlResolver (r : SearchResult Number) :
  renderCard urlResolver r ≠ EmptyString.
Proof. unfold renderCard. rewrite app_cons. discriminate. Qed.

Lemma renderSearchResults_join {Number} (results : list (SearchResult Number)) urlResolver :
  renderSearchResults results urlResolver = join (map (renderCard urlResolver) results).
Proof. by destruct results. Qed.

Lemma noResultsMessage_nonempty query : noResultsMessage query ≠ EmptyString.
Proof. unfold noResultsMessage. rewrite app_cons. discriminate. Qed.

Lemma renderSearchResults_nonempty {Number} (results : list (SearchResult Number)) urlResolver :
  renderSearchResults results urlResolver = EmptyString → results = [].
Proof.
  rewrite renderSearchResults_join. intros H%join_empty.
  destruct results as [|r results]; [done|].
  inversion H as [|? ? Hr _]. by apply renderCard_nonempty in Hr.
Qed.

(** X6. [renderSearchResults] yields the empty string exactly when
    there is no result to render, whatever the resolver. *)
Theorem renderSearchResults_empty_iff {Number} (results : list (SearchResult Number))
    (urlResolver : option NLPURLResolver.t) :
  renderSearchResults results urlResolver = EmptyString ↔ results = [].
Proof. split; [apply renderSearchResults_nonempty | by intros ->]. Qed.

(** X7. The HTML of a list of results is the HTML of its parts, one
    after the other: rendering keeps the order of the results and adds
    nothing between or around the cards. *)
Theorem renderSearchResults_app {Number} (results1 results2 : list (SearchResult Number))
    (urlResolver : option NLPURLResolver.t) :
  renderSearchResults (results1 ++ results2) urlResolver =
  renderSearchResults results1 urlResolver +:+ renderSearchResults results2 urlResolver.
Proof. by rewrite !renderSearchResults_join, map_app, join_app. Qed.

Lemma renderCard_not_loaded {Number} resolver (r : SearchResult Number) :
  NLPURLResolver.isLoaded resolver = false →
  is_Some (URL (item r)) →
  renderCard (Some resolver) r = renderCard None r.
Proof.
  intros Hl [u Hu]. unfold renderCard, NLPURLResolver.getProjectPageURL.
  by rewrite Hl, Hu.
Qed.

(** X8. A resolver that is not loaded changes nothing: when the records
    carry a URL, as normalized records do, the cards rendered with such a
    resolver are those rendered with no resolver, each linking to its
    record's own URL. *)
Theorem renderSearchResults_not_loaded {Number} (results : list (SearchResult Number))
    (resolver : NLPURLResolver.t) :
  NLPURLResolver.isLoaded resolver = false →
  Forall (λ r, is_Some (URL (item r))) results →
  renderSearchResults results (Some resolver) = renderSearchResults results None.
Proof.
  intros Hl Hurls. rewrite !renderSearchResults_join. f_equal.
  induction Hurls as [|r results Hr _ IH]; [done|]. simpl.
  by rewrite (renderCard_not_loaded resolver r Hl Hr), IH.
Qed.

Lemma renderSearchResults_not_loaded_witness :
  renderSearchResults (exactResult (Number:=nat) <$> sampleFeeds)
    (Some (NLPURLResolver.new "https://example.org")) =
  renderSearchResults (exactResult (Number:=nat) <$> sampleFeeds) None.
Proof.
  apply renderSearchResults_not_loaded; [reflexivity|].
  apply Forall_fmap, Forall_fmap, Forall_true. intros r. simpl.
  destruct (or_else_default (or_else (optTrim (r !! "URL")) (optTrim (r !! "Link"))) "#")
    as [u Hu]. by exists u.
Defined.

(** X9. [doSearch] reads the search box through [trim] only: white
    space around the typed query changes neither the outcome nor the
    content of the results panel. *)
Theorem doSearch_trims_input {Number} (feeds : list Feed) (fuse : option (Fuse Number))
    (value : string) (checked : bool) (nlpAI : option (option NLPURLResolver.t))
    (html : string) :
  searchResults_innerHTML <$> doSearch (mkPage feeds fuse value checked nlpAI html) =
  searchResults_innerHTML <$> doSearch (mkPage feeds fuse (trim value) checked nlpAI html).
Proof.
  unfold doSearch. simpl. rewrite trim_idemp.
  destruct feeds as [|f feeds]; [done|].
  destruct (negb (truthyStr (trim value))); [done|].
  destruct (searchFeeds (trim value) (f :: feeds) fuse checked) as [[|r results]|]; done.
Qed.

(** X10. On a page with readable records, for ASCII text, in exact mode
    and with a query that is not blank, [doSearch] does not fail: it shows the
    no-results message for the trimmed query when no record qualifies for
    it, and otherwise the cards of the qualifying records, in the order of
    the records. Nothing but the results panel changes. *)
Theorem doSearch_exact {Number} (p : Page Number) :
  isASCII (searchInput_value p) = true →
  Forall asciiText (feeds p) →
  feeds p ≠ [] →
  Forall searchable (feeds p) →
  fuzzyCheckbox_checked p = false ∨ fuse p = None →
  allWhiteSpace (searchInput_value p) = false →
  let query := trim (searchInput_value p) in
  let found := filter (Qualifies query) (feeds p) in
  doSearch p =
  Some (set_innerHTML p
          (match found with
           | [] => noResultsMessage query
           | _ => renderSearchResults (exactResult (Number:=Number) <$> found) (nlpAI p ≫= id)
           end)).
Proof.
  intros _ _ Hne Hfeeds Hmode Hq query found. unfold doSearch.
  destruct (feeds p) as [|f fs] eqn:E; [done|]. fold query.
  assert (query ≠ EmptyString) as Hquery.
  { unfold query. intros H%trim_empty. congruence. }
  apply truthyStr_true in Hquery as Htruthy. rewrite Htruthy. simpl.
  rewrite (exact_search_result query (f :: fs) (fuse p) _); try done.
  - simpl. fold found. by destruct found.
  - apply trim_nonblank. by apply truthyStr_true.
Qed.

Lemma doSearch_exact_witness :
  doSearch (mkPage (Number:=nat) sampleFeeds None "  etl " true None "old") =
  Some (mkPage sampleFeeds None "  etl " true None
          (match filter (Qualifies "etl") sampleFeeds with
           | [] => noResultsMessage "etl"
           | found => renderSearchResults (exactResult (Number:=nat) <$> found) None
           end)).
Proof.
  apply (doSearch_exact (mkPage (Number:=nat) sampleFeeds None "  etl " true None "old")).
  - reflexivity.
  - apply sampleFeeds_ascii.
  - discriminate.
  - apply Forall_fmap, Forall_true. intros r. apply normalizeRow_searchable.
  - by right.
  - reflexivity.
Defined.

(** X11. Once records are loaded, and for ASCII text, a [doSearch] that
    returns leaves the results panel empty exactly when the search box is
    blank: any other query shows either the no-results message or at
    least one card, in fuzzy and in exact mode alike. *)
Theorem doSearch_panel_empty_iff {Number} (p p' : Page Number) :
  isASCII (searchInput_value p) = true →
  Forall asciiText (feeds p) →
  feeds p ≠ [] →
  doSearch p = Some p' →
  searchResults_innerHTML p' = EmptyString ↔ allWhiteSpace (searchInput_value p) = true.
Proof.
  intros _ _ Hne. unfold doSearch. destruct (feeds p) as [|f fs] eqn:E; [done|].
  destruct (truthyStr (trim (searchInput_value p))) eqn:Ht; simpl.
  - assert (allWhiteSpace (searchInput_value p) = false) as Hws.
    { apply truthyStr_true in Ht.
      destruct (allWhiteSpace (searchInput_value p)) eqn:Hw; [|done].
      by apply trim_empty in Hw. }
    rewrite Hws.
    destruct (searchFeeds _ _ _ _) as [[|r results]|]; simpl; [| |done].
    + intros [= <-]. simpl. split; [|done]. by intros H%noResultsMessage_nonempty.
    + intros [= <-]. simpl. split; [|done].
      by intros H%(renderSearchResults_nonempty (r :: results)).
  - intros [= <-]. simpl. split; [|done]. intros _.
    apply trim_empty. by apply truthyStr_false.
Qed.

Lemma doSearch_panel_empty_iff_witness :
  (searchResults_innerHTML (mkPage (Number:=nat) sampleFeeds (Some sampleFuse) "   " true None
                              EmptyString) = EmptyString ↔
   allWhiteSpace "   " = true) ∧
  (searchResults_innerHTML
     (mkPage (Number:=nat) sampleFeeds (Some sampleFuse) "zebra" false None
        (noResultsMessage "zebra")) = EmptyString ↔
   allWhiteSpace "zebra" = true) ∧
  (searchResults_innerHTML
     (mkPage (Number:=nat) sampleFeeds (Some sampleFuse) " pipe" true None
        (renderSearchResults (search sampleFuse "pipe") None)) = EmptyString ↔
   allWhiteSpace " pipe" = true).
Proof.
  split; [|split].
  - apply (doSearch_panel_empty_iff
             (mkPage sampleFeeds (Some sampleFuse) "   " true None "old")).
    + reflexivity.
    + apply sampleFeeds_ascii.
    + discriminate.
    + reflexivity.
  - apply (doSearch_panel_empty_iff
             (mkPage sampleFeeds (Some sampleFuse) "zebra" false None "old")).
    + reflexivity.
    + apply sampleFeeds_ascii.
    + discriminate.
    + vm_compute. reflexivity.
  - apply (doSearch_panel_empty_iff
             (mkPage sampleFeeds (Some sampleFuse) " pipe" true None "old")).
    + reflexivity.
    + apply sampleFeeds_ascii.
    + discriminate.
    + reflexivity.
Defined.

(** ** More on the title resolver *)

Lemma getProjectPageURL_not_loaded this projectTitle fallbackURL :
  isLoaded this = false →
  getProjectPageURL this projectTitle fallbackURL = default "#" fallbackURL.
Proof. intros Hl. unfold getProjectPageURL. by rewrite Hl. Qed.

Lemma getProjectPageURL_empty_title this fallbackURL :
  getProjectPageURL this (Some EmptyString) fallbackURL = default "#" fallbackURL.
Proof. unfold getProjectPageURL. by destruct (isLoaded this). Qed.

(** X12. An [init] that fails switches the resolver off without
    touching its table: whatever was loaded before stays in the table,
    and every call of [getProjectPageURL] returns the fallback URL (the
    default one when none is given) until an [init] succeeds. *)
Theorem failed_init_disables_resolver (this : t) (o : CsvOutcome)
    (projectTitle fallbackURL : option string) :
  (init this o).2 = false →
  listsMapping (init this o).1 = listsMapping this ∧
  getProjectPageURL (init this o).1 projectTitle fallbackURL = default "#" fallbackURL.
Proof.
  intros Hfail. split.
  - rewrite init_table. destruct o as [| | |[|row data]]; try done.
    unfold freshTable. simpl. by rewrite (left_id_L ∅ (∪)).
  - apply getProjectPageURL_not_loaded. by rewrite init_isLoaded.
Qed.

Lemma failed_init_disables_resolver_witness :
  listsMapping (init sampleResolver (CsvFetchRejected "offline")).1 !! "Alpha Project" =
    Some "alpha" ∧
  getProjectPageURL (init sampleResolver (CsvFetchRejected "offline")).1
    (Some "Alpha Project") (Some "https://x") = "https://x".
Proof.
  destruct (failed_init_disables_resolver sampleResolver (CsvFetchRejected "offline")
              (Some "Alpha Project") (Some "https://x") eq_refl) as [Htab Hurl].
  split; [by rewrite Htab | exact Hurl].
Defined.

(** X13. On a resolver the page can hold, white space around the title
    is ignored: a title and its trimmed form resolve alike. *)
Theorem getProjectPageURL_trims_title (this : t) (title : string)
    (fallbackURL : option string) :
  reachable this →
  getProjectPageURL this (Some title) fallbackURL =
  getProjectPageURL this (Some (trim title)) fallbackURL.
Proof.
  intros Hreach.
  destruct (isLoaded this) eqn:Hl; [|by rewrite !getProjectPageURL_not_loaded].
  destruct (trim title) as [|c t] eqn:Ht.
  - rewrite getProjectPageURL_empty_title.
    assert (listsMapping this !! EmptyString = None) as Hkey.
    { destruct (listsMapping this !! EmptyString) as [v|] eqn:E; [|done].
      by destruct (reachable_nonempty this EmptyString v Hreach E). }
    apply getProjectPageURL_miss; rewrite Ht; simpl; by rewrite (get_EmptyString _ Hkey).
  - rewrite <- Ht. unfold getProjectPageURL. rewrite Hl. cbn [negb truthy].
    rewrite trim_idemp.
    assert (truthyStr (trim title) = true) as -> by (by rewrite Ht).
    assert (truthyStr title = true) as ->; [|done].
    destruct title; [by rewrite trim_EmptyString in Ht | done].
Qed.

Lemma getProjectPageURL_trims_title_witness :
  getProjectPageURL sampleResolver (Some "  alpha PROJECT  ") (Some "#") =
  getProjectPageURL sampleResolver (Some (trim "  alpha PROJECT  ")) (Some "#").
Proof. apply getProjectPageURL_trims_title, sampleResolver_reachable. Defined.



(** X15. Running [init] again with the same outcome changes nothing:
    the resolver and the returned boolean are those of the first run. *)
Theorem init_same_outcome_idempotent (this : t) (o : CsvOutcome) :
  init (init this o).1 o = init this o.
Proof.
  assert (listsMapping (init (init this o).1 o).1 = listsMapping (init this o).1) as Htab.
  { rewrite (init_table (init this o).1 o), (init_table this o).
    destruct o as [| | |data]; try done.
    by rewrite (assoc_L (∪)), (idemp_L (∪)). }
  destruct o as [| | |[|row data]]; try done.
  unfold init at 1. unfold loadListsMapping at 1. cbv zeta iota beta.
  unfold init, loadListsMapping in Htab. simpl in Htab.
  unfold init. simpl. by rewrite Htab.
Qed.

Lemma foldl_addRow_skip m data :
  (∀ row t s, row ∈ data → ¬ rowEntry row t s) → foldl addRow m data = m.
Proof.
  induction data as [|row data IH]; intros Hno; simpl; [done|].
  rewrite addRow_skip.
  - apply IH. intros row' t s Hin. apply Hno. by apply list_elem_of_further.
  - intros t s. apply Hno, list_elem_of_here.
Qed.

(** X26. [init] returns [true] exactly when the parser delivers at
    least one row, and leaves that boolean in [isLoaded]; it never changes
    the base URL. It succeeds even when no row has both a title and a
    slug: the resolver is then loaded with its table unchanged. *)
Theorem init_result (this : t) (o : CsvOutcome) :
  ((init this o).2 = true ↔ ∃ row data, o = CsvParsed (row :: data)) ∧
  isLoaded (init this o).1 = (init this o).2 ∧
  baseURL (init this o).1 = baseURL this ∧
  (∀ data, o = CsvParsed data → data ≠ [] →
           (∀ row title slug, row ∈ data → ¬ rowEntry row title slug) →
           isLoaded (init this o).1 = true ∧
           listsMapping (init this o).1 = listsMapping this).
Proof.
  split; [apply init_succeeds|]. split; [apply init_isLoaded|]. split; [apply init_baseURL|].
  intros data -> Hne Hno. destruct data as [|row data]; [done|]. split; [done|].
  simpl. by apply (foldl_addRow_skip (listsMapping this) (row :: data)).
Qed.

Lemma init_result_witness :
  isLoaded (init (new "https://example.org") (CsvParsed [ {[ "Name" := "Alpha" ]} ])).1 = true ∧
  listsMapping (init (new "https://example.org") (CsvParsed [ {[ "Name" := "Alpha" ]} ])).1 = ∅.
Proof.
  destruct (init_result (new "https://example.org") (CsvParsed [ {[ "Name" := "Alpha" ]} ]))
    as (_ & _ & _ & H).
  apply (H [ {[ "Name" := "Alpha" ]} ] eq_refl); [done|].
  intros row title slug ->%list_elem_of_singleton (Ht & _). discriminate Ht.
Defined.

(** ** Configurations *)

Import AIInsightsConfig.

Lemma filter_empty_iff {A} (P : A → Prop) `{!∀ x, Decision (P x)} (l : list A) :
  filter P l = [] ↔ Forall (λ x, ¬ P x) l.
Proof.
  induction l as [|x l IH]; [by split; [constructor|]|].
  rewrite filter_cons. destruct (decide (P x)) as [HP|HP].
  - split; [done|]. by intros [? _]%Forall_cons.
  - rewrite IH. split; [by constructor | by intros [_ ?]%Forall_cons].
Qed.

Lemma no_element_iff {A} (l : list A) : Nat.ltb 0 (length l) = false ↔ l = [].
Proof. destruct l as [|x l]; [done|]. split; [|done]. cbv. discriminate. Qed.

Lemma includesString_spec strings v :
  includesString strings v = true ↔ ∃ s, v = VString s ∧ s ∈ strings.
Proof.
  destruct v as [| |b|s|items]; simpl;
    try (split; [done | by intros (? & ? & _)]).
  rewrite bool_decide_eq_true. split; [by exists s|]. by intros (? & [= <-] & ?).
Qed.

Lemma field_Some config name v : v ≠ VUndefined → field config name = v ↔ config !! name = Some v.
Proof.
  intros Hv. unfold field. destruct (config !! name) as [w|]; simpl.
  - split; congruence.
  - split; [congruence | done].
Qed.

Lemma known_provider p :
  includesString ["claude"; "gemini"] p = true ↔ p = VString "claude" ∨ p = VString "gemini".
Proof.
  rewrite includesString_spec. split.
  - intros (s & -> & Hs). repeat (apply elem_of_cons in Hs as [-> | Hs]); [by left | by right|].
    by apply elem_of_nil in Hs.
  - intros [-> | ->]; eexists; (split; [done|]);
      [apply list_elem_of_here | apply list_elem_of_further, list_elem_of_here].
Qed.

Lemma known_displayMode config :
  includesString ["analysis"; "search-results"] (field config "displayMode") = true ↔
  config !! "displayMode" = Some (VString "analysis") ∨
  config !! "displayMode" = Some (VString "search-results").
Proof.
  rewrite includesString_spec. split.
  - intros (s & Hf & Hs). apply field_Some in Hf; [|done].
    repeat (apply elem_of_cons in Hs as [-> | Hs]); [by left | by right|].
    by apply elem_of_nil in Hs.
  - intros [H | H]; (apply field_Some in H; [|done]); eexists; (split; [done|]);
      [apply list_elem_of_here | apply list_elem_of_further, list_elem_of_here].
Qed.

Lemma validateConfig_reflect (config : Config) :
  validateConfig config = true ↔ ValidConfig config.
Proof.
  unfold validateConfig, ValidConfig.
  destruct (Nat.ltb 0 (length (filter (λ name, config !! name = None)
              ["providers"; "displayMode"; "cachePrefix"; "apiBase"]))) eqn:Hmiss.
  { split; [done|]. intros [Hreq _].
    apply not_false_iff_true in Hmiss. destruct Hmiss.
    apply no_element_iff, filter_empty_iff, Forall_forall. intros name Hin Hnone.
    destruct (Hreq name Hin) as [v Hv]. congruence. }
  apply no_element_iff, filter_empty_iff in Hmiss.
  assert (∀ name, name ∈ ["providers"; "displayMode"; "cachePrefix"; "apiBase"] →
                  is_Some (config !! name)) as Hreq.
  { intros name Hin. rewrite Forall_forall in Hmiss. specialize (Hmiss name Hin).
    by destruct (config !! name); [eexists|]. }
  destruct (field config "providers") as [| |b|s|providers] eqn:Hp;
    try (split; [done|]; intros (_ & (ps & Hps & _) & _);
         apply field_Some in Hps; [congruence | done]).
  apply field_Some in Hp; [|done].
  destruct providers as [|p0 providers]; simpl.
  { split; [done|]. intros (_ & (ps & Hps & Hne & _) & _). congruence. }
  destruct (Nat.ltb 0 (length (filter (λ p, includesString ["claude"; "gemini"] p = false)
              (p0 :: providers)))) eqn:Hinv.
  { split; [done|]. intros (_ & (ps & Hps & _ & Hknown) & _).
    assert (ps = p0 :: providers) as -> by congruence.
    apply not_false_iff_true in Hinv. destruct Hinv.
    apply no_element_iff, filter_empty_iff, Forall_forall. intros p Hin.
    apply not_false_iff_true, known_provider. by apply Hknown. }
  apply no_element_iff, filter_empty_iff in Hinv.
  destruct (includesString ["analysis"; "search-results"] (field config "displayMode")) eqn:Hd;
    simpl.
  - split; [|done]. intros _. split; [done|]. split; [|by apply known_displayMode].
    exists (p0 :: providers). split; [done|]. split; [done|].
    intros p Hin. rewrite Forall_forall in Hinv.
    apply known_provider, not_false_iff_true. by apply Hinv.
  - split; [done|]. intros (_ & _ & Hmode). apply known_displayMode in Hmode. congruence.
Qed.

(** X16. [validateConfig] accepts a configuration exactly when the four
    required fields are present, [providers] is a non-empty array whose
    elements are the strings [claude] or [gemini], and [displayMode] is
    [analysis] or [search-results]; nothing else is looked at. *)
Theorem validateConfig_spec (config : Config) :
  validateConfig config = true ↔ ValidConfig config.
Proof. apply validateConfig_reflect. Qed.

Lemma preset_cases API_BASE basePreset :
  default (simple API_BASE) (AIInsightsConfigs API_BASE !! basePreset) ∈
  [nlp API_BASE; projects API_BASE; simple API_BASE; advanced API_BASE;
   dashboard API_BASE; report API_BASE].
Proof.
  destruct (AIInsightsConfigs API_BASE !! basePreset) as [c|] eqn:E; simpl.
  - apply elem_of_list_to_map_2 in E.
    repeat (apply elem_of_cons in E as [[= _ ->] | E]);
      try (by apply elem_of_nil in E); set_solver.
  - set_solver.
Qed.

Lemma preset_valid API_BASE c :
  c ∈ [nlp API_BASE; projects API_BASE; simple API_BASE; advanced API_BASE;
       dashboard API_BASE; report API_BASE] →
  ValidConfig c.
Proof.
  intros Hc.
  repeat (apply elem_of_cons in Hc as [-> | Hc]); try (by apply elem_of_nil in Hc).
  all: split; [|split].
  all: try (intros name Hn;
            repeat (apply elem_of_cons in Hn as [-> | Hn]); try (by apply elem_of_nil in Hn);
            by eexists).
  all: try (by (left + right)).
  all: eexists; split; [reflexivity|]; split; [done|].
  all: intros p Hp;
       repeat (apply elem_of_cons in Hp as [-> | Hp]); try (by apply elem_of_nil in Hp);
       by (left + right).
Qed.

(** Validity is read off the four required fields alone. *)
Lemma ValidConfig_agree (c c' : Config) :
  (∀ name, name ∈ ["providers"; "displayMode"; "cachePrefix"; "apiBase"] →
           is_Some (c !! name) → is_Some (c' !! name)) →
  c' !! "providers" = c !! "providers" →
  c' !! "displayMode" = c !! "displayMode" →
  ValidConfig c → ValidConfig c'.
Proof.
  intros Hpres Hp Hd (Hreq & Hprov & Hmode). split; [|split].
  - intros name Hn. by apply Hpres, Hreq.
  - by rewrite Hp.
  - by rewrite Hd.
Qed.

Lemma preset_names API_BASE basePreset c :
  AIInsightsConfigs API_BASE !! basePreset = Some c →
  PlainObject.objectPrototype basePreset = None.
Proof.
  intros E. apply elem_of_list_to_map_2 in E.
  repeat (apply elem_of_cons in E as [[= -> _] | E]); try (by apply elem_of_nil in E);
    reflexivity.
Qed.

(** X17. Whatever [window.API_BASE] holds, and for every preset name
    that is not the name of a member every object inherits (an unknown
    name then stands for the [simple] preset), [createCustomConfig]
    yields a configuration that [validateConfig] accepts, as long as the
    overrides leave [providers] and [displayMode] alone; with no overrides
    at all in particular. Under an inherited name ([constructor],
    [toString], ...) there is no fallback to [simple]: with no overrides
    the result is the empty configuration, which [validateConfig]
    rejects. *)
Theorem createCustomConfig_valid (API_BASE : Value) (basePreset : string)
    (overrides : option Config) :
  (PlainObject.objectPrototype basePreset = None →
   (∀ o, overrides = Some o → o !! "providers" = None ∧ o !! "displayMode" = None) →
   validateConfig (createCustomConfig API_BASE basePreset overrides) = true) ∧
  (PlainObject.objectPrototype basePreset ≠ None →
   createCustomConfig API_BASE basePreset None = ∅ ∧
   validateConfig (createCustomConfig API_BASE basePreset None) = false).
Proof.
  split.
  - intros Hname Hover. apply validateConfig_reflect. unfold createCustomConfig.
    rewrite Hname.
    set (base := match AIInsightsConfigs API_BASE !! basePreset with
                 | Some preset => preset
                 | None => simple API_BASE
                 end).
    assert (ValidConfig base) as Hbase.
    { apply (preset_valid API_BASE). apply (preset_cases API_BASE basePreset). }
    assert (default ∅ overrides !! "providers" = None ∧
            default ∅ overrides !! "displayMode" = None) as [Hp Hd].
    { destruct overrides as [o|]; simpl; [by apply Hover | done]. }
    apply (ValidConfig_agree base); [| | |done].
    + intros name _ [v Hv]. rewrite lookup_union, Hv.
      destruct (default ∅ overrides !! name); by eexists.
    + by rewrite lookup_union, Hp, (left_id_L None (∪)).
    + by rewrite lookup_union, Hd, (left_id_L None (∪)).
  - intros Hname. unfold createCustomConfig.
    destruct (AIInsightsConfigs API_BASE !! basePreset) as [c|] eqn:E.
    { by apply preset_names in E. }
    destruct (PlainObject.objectPrototype basePreset); [|done].
    simpl. by rewrite (left_id_L ∅ (∪)).
Qed.

Lemma createCustomConfig_valid_witness :
  validateConfig (createCustomConfig VUndefined "no-such-preset"
                    (Some {[ "cachePrefix" := VString "mine" ]})) = true ∧
  validateConfig (createCustomConfig VUndefined "constructor" None) = false.
Proof.
  split.
  - destruct (createCustomConfig_valid VUndefined "no-such-preset"
                (Some {[ "cachePrefix" := VString "mine" ]})) as [H _].
    apply H; [reflexivity|]. intros o [= <-]. split; reflexivity.
  - destruct (createCustomConfig_valid VUndefined "constructor" None) as [_ H].
    apply H. discriminate.
Defined.

(** ** The insights component *)

Lemma defaults_valid API_BASE : ValidConfig (AIInsightsComponent.defaults API_BASE).
Proof.
  split; [|split].
  - intros name Hn.
    repeat (apply elem_of_cons in Hn as [-> | Hn]); try (by apply elem_of_nil in Hn);
      by eexists.
  - eexists. split; [reflexivity|]. split; [done|].
    intros p ->%list_elem_of_singleton. by right.
  - by left.
Qed.

(** X18. The constructor of the component keeps configurations valid:
    with no configuration its defaults pass [validateConfig], and a
    configuration that passes it still does after the defaults are merged
    under it. *)
Theorem new_config_valid (API_BASE : Value) (config : option Config) :
  (∀ c, config = Some c → validateConfig c = true) →
  validateConfig (AIInsightsComponent.config (AIInsightsComponent.new API_BASE config)) = true.
Proof.
  intros Hvalid. apply validateConfig_reflect. simpl.
  destruct config as [c|]; simpl.
  - specialize (Hvalid c eq_refl). apply validateConfig_reflect in Hvalid.
    assert (∀ name, name ∈ ["providers"; "displayMode"; "cachePrefix"; "apiBase"] →
              (c ∪ AIInsightsComponent.defaults API_BASE) !! name = c !! name) as Hsame.
    { intros name Hn. destruct Hvalid as [Hreq _]. destruct (Hreq name Hn) as [v Hv].
      by rewrite lookup_union, Hv, union_Some_l. }
    apply (ValidConfig_agree c); [| | |done].
    + intros name Hn H. by rewrite Hsame.
    + apply Hsame, list_elem_of_here.
    + apply Hsame, list_elem_of_further, list_elem_of_here.
  - rewrite (left_id_L ∅ (∪)). apply defaults_valid.
Qed.

Lemma new_config_valid_witness :
  validateConfig (AIInsightsComponent.config
                    (AIInsightsComponent.new VUndefined (Some (projects VUndefined)))) = true.
Proof. apply new_config_valid. intros c [= <-]. reflexivity. Defined.

Section CacheFacts.

Variable JSON_stringify : gmap string AIInsightsComponent.Entry → string.

Local Abbreviation save := (AIInsightsComponent.saveToCache JSON_stringify).
Local Abbreviation get := AIInsightsComponent.getFromCache.
Local Abbreviation caching this :=
  (truthyValue (field (AIInsightsComponent.config this) "enableCaching")).

Lemma save_config this storage provider cacheKey data now ok :
  AIInsightsComponent.config (save this storage provider cacheKey data now ok).1 =
  AIInsightsComponent.config this.
Proof. unfold AIInsightsComponent.saveToCache. by destruct (caching this). Qed.

Lemma save_cache this storage provider cacheKey data now ok :
  caching this = true →
  AIInsightsComponent.cache (save this storage provider cacheKey data now ok).1 =
  <[provider := <[cacheKey := <["timestamp" := VString now]> data]>
                  (default ∅ (AIInsightsComponent.cache this !! provider))]>
    (AIInsightsComponent.cache this).
Proof. intros H. unfold AIInsightsComponent.saveToCache. by rewrite H. Qed.

(** X19. With caching enabled, what [saveToCache] stores is what
    [getFromCache] returns under the same provider and key: the data with
    its [timestamp] set to the time of the call. This holds even when the
    write to [localStorage] fails. The provider is not the name of a
    member every object inherits, and the key is not [__proto__]. *)
Theorem saveToCache_round_trip this storage provider cacheKey data now setItemOk :
  PlainObject.objectPrototype provider = None →
  cacheKey ≠ "__proto__" →
  truthyValue (field (AIInsightsComponent.config this) "enableCaching") = true →
  AIInsightsComponent.getFromCache
    (AIInsightsComponent.saveToCache JSON_stringify this storage provider cacheKey data now
       setItemOk).1 provider cacheKey =
  Some (<["timestamp" := VString now]> data).
Proof.
  intros _ _ H. unfold AIInsightsComponent.getFromCache.
  rewrite save_config, H, (save_cache _ _ _ _ _ _ _ H). simpl.
  rewrite lookup_insert_eq. simpl. by rewrite lookup_insert_eq.
Qed.

(** X20. [saveToCache], for a provider that is not the name of a
    member every object inherits and a key that is not [__proto__],
    touches one entry only: under any other provider or any other key
    (not the name of an inherited member either), [getFromCache] returns
    afterwards what it returned before. *)
Theorem saveToCache_other_entries this storage provider cacheKey data now setItemOk
    provider' cacheKey' :
  PlainObject.objectPrototype provider = None →
  cacheKey ≠ "__proto__" →
  PlainObject.objectPrototype cacheKey' = None →
  provider' ≠ provider ∨ cacheKey' ≠ cacheKey →
  AIInsightsComponent.getFromCache
    (AIInsightsComponent.saveToCache JSON_stringify this storage provider cacheKey data now
       setItemOk).1 provider' cacheKey' =
  AIInsightsComponent.getFromCache this provider' cacheKey'.
Proof.
  intros _ _ _ Hother. unfold AIInsightsComponent.getFromCache. rewrite save_config.
  destruct (caching this) eqn:H; [|done]. simpl.
  rewrite (save_cache _ _ _ _ _ _ _ H).
  destruct (decide (provider' = provider)) as [->|Hp].
  - destruct Hother as [?|Hk]; [done|]. rewrite lookup_insert_eq. simpl.
    rewrite lookup_insert_ne by done.
    by destruct (AIInsightsComponent.cache this !! provider).
  - by rewrite lookup_insert_ne.
Qed.

(** With caching disabled, [saveToCache] changes neither the component
    nor [localStorage], and [getFromCache] returns [null]. *)
Lemma caching_off this storage provider cacheKey data now setItemOk :
  caching this = false →
  save this storage provider cacheKey data now setItemOk = (this, storage) ∧
  get this provider cacheKey = None.
Proof.
  intros H. unfold AIInsightsComponent.saveToCache, AIInsightsComponent.getFromCache.
  by rewrite H.
Qed.

(** X21. With caching enabled, a [saveToCache] whose write succeeds
    leaves in [localStorage], under the provider's key, the serialization
    of exactly the entries the cache now holds for that provider, and
    leaves every other key alone; a write that fails leaves [localStorage]
    as it was. The provider is not the name of a member every object
    inherits, and the key is not [__proto__]. *)
Theorem saveToCache_storage this storage provider cacheKey data now setItemOk :
  PlainObject.objectPrototype provider = None →
  cacheKey ≠ "__proto__" →
  truthyValue (field (AIInsightsComponent.config this) "enableCaching") = true →
  let this' :=
    (AIInsightsComponent.saveToCache JSON_stringify this storage provider cacheKey data now
       setItemOk).1 in
  let storage' :=
    (AIInsightsComponent.saveToCache JSON_stringify this storage provider cacheKey data now
       setItemOk).2 in
  (setItemOk = true →
   storage' !! AIInsightsComponent.storageKey this provider =
     JSON_stringify <$> AIInsightsComponent.cache this' !! provider ∧
   ∀ key, key ≠ AIInsightsComponent.storageKey this provider →
          storage' !! key = storage !! key) ∧
  (setItemOk = false → storage' = storage).
Proof.
  intros _ _ H this' storage'. unfold this', storage'.
  rewrite (save_cache _ _ _ _ _ _ _ H).
  unfold AIInsightsComponent.saveToCache. rewrite H. simpl. split.
  - intros ->. split.
    + by rewrite !lookup_insert_eq.
    + intros key Hkey. by rewrite lookup_insert_ne.
  - by intros ->.
Qed.

End CacheFacts.

Lemma saveToCache_round_trip_witness :
  AIInsightsComponent.getFromCache
    (AIInsightsComponent.saveToCache AIInsightsComponent.sampleStringify
       AIInsightsComponent.sampleComponent ∅ "gemini" "default"
       AIInsightsComponent.sampleData "2024-05-01T10:00:00.000Z" false).1
    "gemini" "default" =
  Some (<["timestamp" := VString "2024-05-01T10:00:00.000Z"]> AIInsightsComponent.sampleData).
Proof. apply saveToCache_round_trip; [reflexivity | discriminate | reflexivity]. Defined.

Lemma saveToCache_other_entries_witness :
  AIInsightsComponent.getFromCache
    (AIInsightsComponent.saveToCache AIInsightsComponent.sampleStringify
       AIInsightsComponent.sampleComponent ∅ "gemini" "default"
       AIInsightsComponent.sampleData "2024-05-01T10:00:00.000Z" true).1
    "claude" "default" =
  AIInsightsComponent.getFromCache AIInsightsComponent.sampleComponent "claude" "default".
Proof.
  apply saveToCache_other_entries; [reflexivity | discriminate | reflexivity | by left].
Defined.

Lemma saveToCache_storage_witness :
  (AIInsightsComponent.saveToCache AIInsightsComponent.sampleStringify
     AIInsightsComponent.sampleComponent ∅ "gemini" "default"
     AIInsightsComponent.sampleData "2024-05-01T10:00:00.000Z" true).2
    !! "projectsInsights_gemini" =
  AIInsightsComponent.sampleStringify <$>
    AIInsightsComponent.cache
      (AIInsightsComponent.saveToCache AIInsightsComponent.sampleStringify
         AIInsightsComponent.sampleComponent ∅ "gemini" "default"
         AIInsightsComponent.sampleData "2024-05-01T10:00:00.000Z" true).1 !! "gemini".
Proof.
  destruct (saveToCache_storage AIInsightsComponent.sampleStringify
              AIInsightsComponent.sampleComponent ∅ "gemini" "default"
              AIInsightsComponent.sampleData "2024-05-01T10:00:00.000Z" true eq_refl
              ltac:(discriminate) eq_refl)
    as [Hok _].
  destruct (Hok eq_refl) as [Hkey _]. exact Hkey.
Defined.

Lemma get_cleared this provider cacheKey entries :
  AIInsightsComponent.cache this !! provider = entries →
  (∀ e, entries = Some e → e = ∅) →
  AIInsightsComponent.getFromCache this provider cacheKey = None.
Proof.
  intros Hc He. unfold AIInsightsComponent.getFromCache.
  destruct (negb _); [done|]. rewrite Hc.
  destruct entries as [e|]; [|done]. by rewrite (He e eq_refl).
Qed.

(** X22. [clearCache] with a provider name other than [__proto__] empties
    the cache of that provider and of no other, removes that provider's
    key from [localStorage] and no other, and returns: afterwards
    [getFromCache] finds nothing for that provider under any key that is
    not the name of a member every object inherits. *)
Theorem clearCache_provider (this : AIInsightsComponent.t)
    (storage : AIInsightsComponent.Storage) (provider : string) :
  provider ≠ EmptyString →
  provider ≠ "__proto__" →
  let result := AIInsightsComponent.clearCache this storage (Some provider) in
  result.2 = true ∧
  (∀ cacheKey, PlainObject.objectPrototype cacheKey = None →
               AIInsightsComponent.getFromCache result.1.1 provider cacheKey = None) ∧
  (∀ provider' cacheKey, provider' ≠ provider →
     AIInsightsComponent.getFromCache result.1.1 provider' cacheKey =
     AIInsightsComponent.getFromCache this provider' cacheKey) ∧
  result.1.2 = delete (AIInsightsComponent.storageKey this provider) storage.
Proof.
  intros Hp _. destruct provider as [|c p]; [done|]. simpl. split; [done|].
  split; [|split; [|done]].
  - intros cacheKey _. eapply get_cleared; [apply lookup_insert_eq|]. by intros e [= <-].
  - intros provider' cacheKey Hne. unfold AIInsightsComponent.getFromCache. simpl.
    by rewrite lookup_insert_ne.
Qed.

Lemma clearCache_provider_witness :
  AIInsightsComponent.getFromCache
    (AIInsightsComponent.clearCache
       (AIInsightsComponent.saveToCache AIInsightsComponent.sampleStringify
          AIInsightsComponent.sampleComponent ∅ "gemini" "default"
          AIInsightsComponent.sampleData "2024-05-01T10:00:00.000Z" true).1
       ∅ (Some "gemini")).1.1 "gemini" "default" = None.
Proof.
  destruct (clearCache_provider
              (AIInsightsComponent.saveToCache AIInsightsComponent.sampleStringify
                 AIInsightsComponent.sampleComponent ∅ "gemini" "default"
                 AIInsightsComponent.sampleData "2024-05-01T10:00:00.000Z" true).1
              ∅ "gemini" ltac:(done) ltac:(done)) as (_ & H & _).
  apply H. reflexivity.
Defined.

Lemma foldl_delete_lookup {A} (f : A → string) (storage : AIInsightsComponent.Storage)
    (l : list A) key :
  foldl (λ st p, delete (f p) st) storage l !! key =
  if bool_decide (key ∈ f <$> l) then None else storage !! key.
Proof.
  revert storage. induction l as [|p l IH]; intros storage; simpl; [done|].
  rewrite IH. destruct (decide (key = f p)) as [->|Hne].
  - rewrite lookup_delete_eq.
    case_bool_decide as H1; case_bool_decide as H2; try done;
      destruct H2; apply list_elem_of_here.
  - rewrite lookup_delete_ne by done.
    case_bool_decide as H1; case_bool_decide as H2; try done.
    + destruct H2. by apply list_elem_of_further.
    + apply elem_of_cons in H2 as [?|?]; done.
Qed.

(** X23. [clearCache] with no provider (or the empty name) empties the
    whole cache: afterwards [getFromCache] finds nothing under any
    provider that is not the name of a member every object inherits. It
    returns exactly when [providers] is an array, and it has then removed
    from [localStorage] the key of every listed provider and no other
    key; otherwise the call throws after the cache was emptied, and
    [localStorage] is as it was. *)
Theorem clearCache_all (this : AIInsightsComponent.t)
    (storage : AIInsightsComponent.Storage) (provider : option string) :
  provider = None ∨ provider = Some EmptyString →
  let result := AIInsightsComponent.clearCache this storage provider in
  AIInsightsComponent.cache result.1.1 = ∅ ∧
  (∀ provider' cacheKey, PlainObject.objectPrototype provider' = None →
     AIInsightsComponent.getFromCache result.1.1 provider' cacheKey = None) ∧
  (∀ providers,
     field (AIInsightsComponent.config this) "providers" = VArray providers →
     result.2 = true ∧
     ∀ key, result.1.2 !! key =
            if bool_decide
                 (key ∈ (λ p, toStr (field (AIInsightsComponent.config this) "cachePrefix")
                               +:+ "_" +:+ toStr p) <$> providers)
            then None else storage !! key) ∧
  ((∀ providers, field (AIInsightsComponent.config this) "providers" ≠ VArray providers) →
   result.2 = false ∧ result.1.2 = storage).
Proof.
  intros Hp result.
  assert (result =
    match field (AIInsightsComponent.config this) "providers" with
    | VArray providers =>
        (AIInsightsComponent.set_cache this ∅,
         foldl (λ st p, delete (toStr (field (AIInsightsComponent.config this) "cachePrefix")
                                  +:+ "_" +:+ toStr p) st) storage providers, true)
    | _ => (AIInsightsComponent.set_cache this ∅, storage, false)
    end) as ->.
  { unfold result. by destruct Hp as [-> | ->]. }
  assert (∀ provider' cacheKey, PlainObject.objectPrototype provider' = None →
            AIInsightsComponent.getFromCache (AIInsightsComponent.set_cache this ∅)
              provider' cacheKey = None) as Hget.
  { intros provider' cacheKey _. eapply get_cleared; [apply lookup_empty | done]. }
  destruct (field (AIInsightsComponent.config this) "providers") as [| |b|s|providers];
    simpl; (split; [done|]); (split; [done|]); (split; [|try by intros _]);
    try (by intros ps [=]).
  - intros ps [= <-]. split; [done|]. intros key. apply foldl_delete_lookup.
  - intros H. by destruct (H providers).
Qed.

Lemma clearCache_all_witness :
  (AIInsightsComponent.clearCache AIInsightsComponent.sampleComponent
     {[ "projectsInsights_claude" := "{}"; "other" := "kept" ]} None).2 = true ∧
  (AIInsightsComponent.clearCache AIInsightsComponent.sampleComponent
     {[ "projectsInsights_claude" := "{}"; "other" := "kept" ]} None).1.2
    !! "projectsInsights_claude" = None.
Proof.
  destruct (clearCache_all AIInsightsComponent.sampleComponent
              {[ "projectsInsights_claude" := "{}"; "other" := "kept" ]} None
              ltac:(by left)) as (_ & _ & H & _).
  destruct (H [VString "claude"; VString "gemini"] eq_refl) as [Hret Hkeys].
  split; [exact Hret|]. by rewrite Hkeys.
Defined.

(** X24. A component built by the NLP adapter never caches, unless the
    custom configuration sets [enableCaching] itself: [saveToCache]
    changes nothing and [getFromCache] returns [null]. *)
Theorem nlp_adapter_never_caches (presets_API_BASE API_BASE : Value)
    (customConfig : option Config)
    (JSON_stringify : gmap string AIInsightsComponent.Entry → string)
    (storage : AIInsightsComponent.Storage) (provider cacheKey : string)
    (data : AIInsightsComponent.Entry) (now : string) (setItemOk : bool) :
  (∀ c, customConfig = Some c → c !! "enableCaching" = None) →
  let adapter := AIInsightsComponent.newNLPAIAdapter presets_API_BASE API_BASE customConfig in
  AIInsightsComponent.saveToCache JSON_stringify adapter storage provider cacheKey data now
    setItemOk = (adapter, storage) ∧
  AIInsightsComponent.getFromCache adapter provider cacheKey = None.
Proof.
  intros Hcustom adapter.
  assert (field (AIInsightsComponent.config adapter) "enableCaching" = VBool false) as H.
  { unfold field, adapter. simpl.
    assert (default ∅ customConfig !! "enableCaching" = None) as Hnone.
    { destruct customConfig as [c|]; simpl; [by apply Hcustom | done]. }
    by rewrite !lookup_union, Hnone. }
  unfold AIInsightsComponent.saveToCache, AIInsightsComponent.getFromCache.
  by rewrite H.
Qed.

Lemma nlp_adapter_never_caches_witness :
  AIInsightsComponent.getFromCache
    (AIInsightsComponent.newNLPAIAdapter VUndefined VUndefined
       (Some {[ "cachePrefix" := VString "mine" ]})) "gemini" "nlp_search" = None.
Proof.
  destruct (nlp_adapter_never_caches VUndefined VUndefined
              (Some {[ "cachePrefix" := VString "mine" ]})
              AIInsightsComponent.sampleStringify ∅ "gemini" "nlp_search"
              AIInsightsComponent.sampleData "2024-05-01T10:00:00.000Z" true) as [_ H].
  - intros c [= <-]. reflexivity.
  - exact H.
Defined.

(** X25. On ASCII text [capitalize] changes at most the case of the
    first character: the rest of the string is kept, the lowercased forms
    agree, and capitalizing twice is capitalizing once; only the empty
    string gives the empty string. *)
Theorem capitalize_case_only (str : string) :
  isASCII str = true →
  slice1 (AIInsightsComponent.capitalize str) = slice1 str ∧
  toLowerCase (AIInsightsComponent.capitalize str) = toLowerCase str ∧
  AIInsightsComponent.capitalize (AIInsightsComponent.capitalize str) =
    AIInsightsComponent.capitalize str ∧
  (AIInsightsComponent.capitalize str = EmptyString ↔ str = EmptyString).
Proof.
  intros _. unfold AIInsightsComponent.capitalize. destruct str as [|c s]; [done|].
  simpl. rewrite !app_cons, !app_nil_l. simpl.
  rewrite lowerChar_upperChar, upperChar_idemp. done.
Qed.

Lemma capitalize_case_only_witness :
  slice1 (AIInsightsComponent.capitalize "gemini") = slice1 "gemini" ∧
  toLowerCase (AIInsightsComponent.capitalize "gemini") = toLowerCase "gemini" ∧
  AIInsightsComponent.capitalize (AIInsightsComponent.capitalize "gemini") =
    AIInsightsComponent.capitalize "gemini" ∧
  (AIInsightsComponent.capitalize "gemini" = EmptyString ↔ "gemini" = EmptyString).
Proof. apply capitalize_case_only. reflexivity. Defined.
